(** * Telegramai: the chat bot (bot.py) and its status dashboard (web_server.py)

    A shallow embedding of the conversation store, the completion call, the
    message handler and the chunked delivery of [bot.py], and of the statistics
    dictionary, the webhook and [update_bot_stats] of [web_server.py]. *)

From Stdlib Require Import ZArith List Lia Strings.String Strings.Ascii.
From Stdlib Require Import Floats.SpecFloat.
From stdpp Require Import base decidable option numbers list gmap pretty.

Local Open Scope Z_scope.
Set Warnings "-register-all".

(** ** Python values used by both programs *)

Module Py.

(** A Python [str] is a sequence of Unicode code points; [len] counts them. *)
Abbreviation str := (list N).

(** An ASCII literal of the source as a [str]. *)
Definition lit (s : String.string) : str :=
  map N_of_ascii (list_ascii_of_string s).

Definition len {A} (s : list A) : Z := Z.of_nat (length s).

(** Index adjustment of the slice [s[start:stop]] (step 1): a negative index
    counts from the end, and both ends are clamped to [0 .. len]. *)
Definition adjust_index (n i : Z) : Z :=
  if i <? 0 then Z.max 0 (i + n) else Z.min i n.

Definition slice {A} (s : list A) (start stop : option Z) : list A :=
  let n := len s in
  let lo := match start with None => 0 | Some i => adjust_index n i end in
  let hi := match stop with None => n | Some j => adjust_index n j end in
  take (Z.to_nat (hi - lo)) (drop (Z.to_nat lo) s).

(** [range(lo, hi, step)]: the number of elements as CPython computes it,
    and [None] for the [ValueError] of a zero step. *)
Definition range_len (lo hi step : Z) : Z :=
  if (0 <? step) && (lo <? hi) then (hi - lo - 1) / step + 1
  else if (step <? 0) && (hi <? lo) then (lo - hi - 1) / (- step) + 1
  else 0.

Definition range (lo hi step : Z) : option (list Z) :=
  if step =? 0 then None
  else Some (map (λ k : nat, lo + Z.of_nat k * step)
                 (seq 0 (Z.to_nat (range_len lo hi step)))).

(** [str.isspace] on one code point, the table of CPython's
    [_PyUnicode_IsWhitespace]. *)
Definition isspace (c : N) : bool :=
  ((9 <=? c) && (c <=? 13) || (28 <=? c) && (c <=? 32)
   || (c =? 133) || (c =? 160) || (c =? 5760)
   || (8192 <=? c) && (c <=? 8202)
   || (c =? 8232) || (c =? 8233) || (c =? 8239) || (c =? 8287)
   || (c =? 12288))%N.

Fixpoint lstrip (s : str) : str :=
  match s with
  | c :: s' => if isspace c then lstrip s' else s
  | [] => []
  end.

Definition rstrip (s : str) : str := rev (lstrip (rev s)).

(** [s.strip()] *)
Definition strip (s : str) : str := lstrip (rstrip s).

(** [f] is the double next to the fraction [num/den]: a positive float with
    a mantissa of 53 bits that is within half a unit in the last place. *)
Definition nearest_double (f : spec_float) (num den : Z) : Prop :=
  match f with
  | S754_finite false m e =>
      2 ^ 52 <= Z.pos m < 2 ^ 53 ∧ e < 0
      ∧ 2 * Z.abs (den * Z.pos m - num * 2 ^ (- e)) <= den
  | _ => False
  end.

(** [repr] of an [int]: its decimal digits. *)
Definition repr_int (z : Z) : str := lit (pretty z).

End Py.

Import Py.


(** ** Handlers as programs over a state that may raise

    A handler threads the process state and either returns or raises; an
    exception keeps the state reached so far, as in Python. *)

Inductive result (E A : Type) : Type :=
| Ok (a : A)
| Raise (e : E).
Arguments Ok {E A} a.
Arguments Raise {E A} e.

Definition prog (S E A : Type) : Type := S → result E A * S.

#[global] Instance prog_ret {S E} : MRet (prog S E) :=
  λ A a s, (Ok a, s).

#[global] Instance prog_bind {S E} : MBind (prog S E) :=
  λ A B k c s,
    match c s with
    | (Ok a, s') => k a s'
    | (Raise e, s') => (Raise e, s')
    end.

Definition raise {S E A} (e : E) : prog S E A := λ s, (Raise e, s).

(** A pure computation that may raise, run inside a handler. *)
Definition lift {S E A} (r : result E A) : prog S E A := λ s, (r, s).

Definition get {S E} : prog S E S := λ s, (Ok s, s).

Definition modify {S E} (f : S → S) : prog S E unit := λ s, (Ok (), f s).

(** [try: body  except Exception as e: handler e] *)
Definition try_except {S E A} (body : prog S E A) (handler : E → prog S E A)
  : prog S E A :=
  λ s, match body s with
       | (Ok a, s') => (Ok a, s')
       | (Raise e, s') => handler e s'
       end.

(** [for x in xs: body x] *)
Fixpoint for_each {S E A} (xs : list A) (body : A → prog S E unit)
  : prog S E unit :=
  match xs with
  | [] => mret ()
  | x :: xs' => body x;; for_each xs' body
  end.


(** ** web_server.py *)

Module WebServer.

(** A [datetime] is kept as a point on the clock; [datetime.now()] is an input
    of the handler that reads it. *)
Abbreviation datetime := Z.

(** A body parsed by [request.get_json()]. Number literals with a fraction or
    an exponent are not part of this model; the items of a [JDict] have
    distinct keys, as those of a Python [dict]. *)
Inductive json : Type :=
| JNull
| JBool (b : bool)
| JInt (z : Z)
| JStr (s : str)
| JList (l : list json)
| JDict (d : list (str * json)).

(** The hashable values a parsed body can hold, as elements of a [set]:
    [True == 1] and [False == 0] are the same element as the integer. *)
Inductive pykey : Type :=
| KNone
| KInt (z : Z)
| KStr (s : str).

#[global] Instance pykey_eq_dec : EqDecision pykey.
Proof. solve_decision. Defined.

#[global] Instance pykey_countable : Countable pykey.
Proof.
  refine (inj_countable'
    (λ k, match k with
          | KNone => inl ()
          | KInt z => inr (inl z)
          | KStr s => inr (inr s)
          end)
    (λ x, match x with
          | inl _ => KNone
          | inr (inl z) => KInt z
          | inr (inr s) => KStr s
          end) _).
  by intros [].
Defined.

Inductive exn : Type :=
| BadRequest (cause : str)      (* raised by [request.get_json()] *)
| KeyError (k : str)
| NotSubscriptable              (* [v[k]] on [None], a [bool] or an [int] *)
| BadIndex                      (* [v[k]] with a [str] key on a list or a str *)
| NotIterable                   (* [k in v] on a [bool] or an [int] *)
| Unhashable.                   (* [set.add] of a list or a dict *)

(** [bot_stats] *)
Record Stats : Type := mkStats {
  status : str;
  api_status : str;
  start_time : datetime;
  response_count : Z;
  active_users : gset pykey;
  last_message_time : option datetime;
  average_response_time : spec_float
}.

(** The dictionary as the module creates it, started at [start]. *)
Definition initial_stats (start : datetime) : Stats :=
  {| status := lit "online";
     api_status := lit "connected";
     start_time := start;
     response_count := 0;
     active_users := ∅;
     last_message_time := None;
     average_response_time := S754_finite false 5 (-1) |}.

Definition set_status (v : str) (s : Stats) : Stats :=
  mkStats v (api_status s) (start_time s) (response_count s)
          (active_users s) (last_message_time s) (average_response_time s).

Definition set_api_status (v : str) (s : Stats) : Stats :=
  mkStats (status s) v (start_time s) (response_count s)
          (active_users s) (last_message_time s) (average_response_time s).

Definition set_response_count (v : Z) (s : Stats) : Stats :=
  mkStats (status s) (api_status s) (start_time s) v
          (active_users s) (last_message_time s) (average_response_time s).

Definition set_active_users (v : gset pykey) (s : Stats) : Stats :=
  mkStats (status s) (api_status s) (start_time s) (response_count s)
          v (last_message_time s) (average_response_time s).

Definition set_last_message_time (v : option datetime) (s : Stats) : Stats :=
  mkStats (status s) (api_status s) (start_time s) (response_count s)
          (active_users s) v (average_response_time s).

Definition set_average_response_time (v : spec_float) (s : Stats) : Stats :=
  mkStats (status s) (api_status s) (start_time s) (response_count s)
          (active_users s) (last_message_time s) v.

(** Truth value of a parsed body. *)
Definition truthy (v : json) : bool :=
  match v with
  | JNull => false
  | JBool b => b
  | JInt z => negb (z =? 0)
  | JStr s => negb (bool_decide (s = []))
  | JList l => match l with [] => false | _ => true end
  | JDict d => match d with [] => false | _ => true end
  end.

Fixpoint startswith (p s : str) : bool :=
  match p, s with
  | [], _ => true
  | _ :: _, [] => false
  | a :: p', b :: s' => (a =? b)%N && startswith p' s'
  end.

Fixpoint substring_of (p s : str) : bool :=
  startswith p s || match s with [] => false | _ :: s' => substring_of p s' end.

(** [k in v] for a [str] [k]. *)
Definition contains (k : str) (v : json) : result exn bool :=
  match v with
  | JDict d => Ok (bool_decide (k ∈ d.*1))
  | JList l => Ok (existsb (λ x, match x with
                                 | JStr s => bool_decide (s = k)
                                 | _ => false
                                 end) l)
  | JStr s => Ok (substring_of k s)
  | JNull | JBool _ | JInt _ => Raise NotIterable
  end.

Fixpoint dict_get (k : str) (d : list (str * json)) : option json :=
  match d with
  | [] => None
  | (k', v) :: d' => if bool_decide (k' = k) then Some v else dict_get k d'
  end.

(** [v[k]] for a [str] [k]. *)
Definition subscript (v : json) (k : str) : result exn json :=
  match v with
  | JDict d => match dict_get k d with
               | Some x => Ok x
               | None => Raise (KeyError k)
               end
  | JList _ | JStr _ => Raise BadIndex
  | JNull | JBool _ | JInt _ => Raise NotSubscriptable
  end.

(** The element [set.add] stores for a value, when the value is hashable. *)
Definition hash_key (v : json) : result exn pykey :=
  match v with
  | JNull => Ok KNone
  | JBool b => Ok (KInt (if b then 1 else 0))
  | JInt z => Ok (KInt z)
  | JStr s => Ok (KStr s)
  | JList _ | JDict _ => Raise Unhashable
  end.

(** [bot_stats] once a message of [key] was counted at [now]. *)
Definition counted (key : pykey) (now : datetime) (s : Stats) : Stats :=
  set_response_count (response_count s + 1)
    (set_last_message_time (Some now)
       (set_active_users ({[key]} ∪ active_users s) s)).

(** The body of a response built by [jsonify]. *)
Inductive body : Type :=
| StatusBody (s : str)          (* [{'status': s}] *)
| ErrorBody (e : exn).          (* [{'error': str(e)}] *)

(** [webhook()]: [request_json] is what [request.get_json()] gives (a raised
    error or the parsed body), [now] what [datetime.now()] reads. The result
    is the body and the status code. *)
Definition webhook (request_json : result exn json) (now : datetime)
  : prog Stats exn (body * Z) :=
  try_except
    (update_data ← lift request_json;
     has_message ← (if truthy update_data
                    then lift (contains (lit "message") update_data)
                    else mret false);
     if has_message : bool then
       message ← lift (subscript update_data (lit "message"));
       sender ← lift (subscript message (lit "from"));
       user_id ← lift (subscript sender (lit "id"));
       key ← lift (hash_key user_id);
       modify (λ s, set_active_users ({[key]} ∪ active_users s) s);;
       modify (set_last_message_time (Some now));;
       modify (λ s, set_response_count (response_count s + 1) s);;
       mret (StatusBody (lit "ok"), 200)
     else
       mret (StatusBody (lit "no_message"), 200))
    (λ e, mret (ErrorBody e, 500)).

(** Truth value of a [float]: every value but the two zeros. *)
Definition float_truthy (f : spec_float) : bool :=
  match f with
  | S754_zero _ => false
  | _ => true
  end.

(** [update_bot_stats(status, api_status, response_time, user_id)]; [None] is
    the default of an argument that is not supplied. *)
Definition update_bot_stats (status api_status : option str)
    (response_time : option spec_float) (user_id : option Z)
    (now : datetime) (s : Stats) : Stats :=
  let s1 := match status with
            | Some v => if negb (bool_decide (v = [])) then set_status v s else s
            | None => s
            end in
  let s2 := match api_status with
            | Some v => if negb (bool_decide (v = []))
                        then set_api_status v s1 else s1
            | None => s1
            end in
  let s3 := match response_time with
            | Some v => if float_truthy v
                        then set_average_response_time v s2 else s2
            | None => s2
            end in
  match user_id with
  | Some u =>
      if negb (u =? 0) then
        set_response_count (response_count s3 + 1)
          (set_last_message_time (Some now)
             (set_active_users ({[KInt u]} ∪ active_users s3) s3))
      else s3
  | None => s3
  end.

(** *** The read-only routes and sequences of calls *)

(** What the standard library formats for the routes: [f"{x:.1f}"],
    [(now - start).total_seconds() / 3600], [t.strftime(pattern)] and
    [t.isoformat()]. *)
Record Formatting : Type := mkFormatting {
  format_1f : spec_float → str;
  hours_between : datetime → datetime → spec_float;
  strftime : datetime → str → str;
  isoformat : datetime → str
}.

(** [api_status()], the route [/api/status]: the dictionary given to
    [jsonify], with its entries in the order of the source. *)
Definition api_status_route (fmt : Formatting) (now : datetime) (s : Stats)
  : json :=
  JDict
    [(lit "bot_status",
      JStr (if bool_decide (status s = lit "online")
            then lit "Online" else lit "Offline"));
     (lit "api_status",
      JStr (if bool_decide (api_status s = lit "connected")
            then lit "Connected" else lit "Disconnected"));
     (lit "response_time",
      JStr (lit "~" ++ format_1f fmt (average_response_time s) ++ lit "s"));
     (lit "active_users", JInt (Z.of_nat (size (active_users s))));
     (lit "uptime_hours",
      JStr (format_1f fmt (hours_between fmt now (start_time s)) ++ lit "h"));
     (lit "total_responses", JInt (response_count s));
     (lit "last_message",
      JStr (match last_message_time s with
            | Some t => strftime fmt t (lit "%H:%M:%S")
            | None => lit "None"
            end));
     (lit "start_time",
      JStr (strftime fmt (start_time s) (lit "%Y-%m-%d %H:%M:%S")))].

(** [health_check()], the route [/health]. *)
Definition health_check (fmt : Formatting) (now : datetime) (s : Stats) : json :=
  JDict
    [(lit "status", JStr (lit "healthy"));
     (lit "timestamp", JStr (isoformat fmt now));
     (lit "bot_running", JBool (bool_decide (status s = lit "online")))].

(** One call that writes [bot_stats]: a request to [/webhook] or a call of
    [update_bot_stats]. *)
Inductive call : Type :=
| Webhook (request_json : result exn json) (now : datetime)
| UpdateBotStats (status api_status : option str)
    (response_time : option spec_float) (user_id : option Z) (now : datetime).

Definition apply_call (c : call) (s : Stats) : Stats :=
  match c with
  | Webhook request_json now => (webhook request_json now s).2
  | UpdateBotStats status api_status response_time user_id now =>
      update_bot_stats status api_status response_time user_id now s
  end.

(** The calls made one after the other. *)
Definition run_calls (calls : list call) (s : Stats) : Stats :=
  foldl (λ s c, apply_call c s) s calls.

End WebServer.


(** ** bot.py

    The calls of [logger] and the [asyncio.sleep] between two chunks change
    nothing of the state below and are left out. *)

Module Bot.

Inductive role : Type := system | user | assistant.

(** One entry of a conversation: [{"role": ..., "content": ...}]. *)
Record Message : Type := mkMessage {
  msg_role : role;
  content : str
}.

(** The keyword arguments of [openai_client.chat.completions.create]. *)
Record CompletionRequest : Type := mkRequest {
  model : str;
  messages : list Message;
  max_tokens : Z;
  temperature : spec_float;
  presence_penalty : spec_float;
  frequency_penalty : spec_float
}.

(** What a call of [chat.completions.create] gives back, once the client has
    made its attempts: it raises (transport error, error status of the API)
    with the text of the error, or it returns a response whose choices each
    hold [message.content], which may be [None]. *)
Inductive ApiOutcome : Type :=
| ApiRaise (cause : str)
| ApiResponse (choices : list (option str)).

Inductive exn : Type :=
| KeyError (k : Z)
| IndexError
| AttributeError
| ValueError
| ApiError (cause : str)
| TelegramError (cause : str)
| Exception (msg : str)
| NoMessage (attribute : str).  (* [update.message.attribute] on the [None] of
                                   an update without message *)

(** [str(e)] *)
Definition py_str (e : exn) : str :=
  match e with
  | KeyError k => repr_int k
  | IndexError => lit "list index out of range"
  | AttributeError => lit "'NoneType' object has no attribute 'strip'"
  | ValueError => lit "range() arg 3 must not be zero"
  | ApiError cause => cause
  | TelegramError cause => cause
  | Exception msg => msg
  | NoMessage attribute =>
      lit "'NoneType' object has no attribute '" ++ attribute ++ lit "'"
  end.

(** What the bot sends to Telegram. *)
Inductive event : Type :=
| ChatAction (chat_id : Z) (action : str)
| ReplyText (chat_id : Z) (text : str) (parse_mode : option str).

(** The part of an [Update] the handlers read, for an update that carries a
    message ([update.message] is not [None]); see [incoming] for the updates
    without one. *)
Record Update : Type := mkUpdate {
  effective_user_id : Z;
  effective_user_first_name : str;
  effective_chat_id : Z;
  message_text : str
}.

(** The state of the process: the module-level [user_conversations] of bot.py,
    the module-level [bot_stats] of web_server.py (run_combined.py loads both
    modules in one process), what has been sent so far to Telegram, and the
    calls of [openai_client.chat.completions.create] made so far, each with
    the request it was given. [api_calls] lists calls of the client, not what
    the client sends to the API: see [client_create] for its attempts. *)
Record World : Type := mkWorld {
  user_conversations : gmap Z (list Message);
  bot_stats : WebServer.Stats;
  outbox : list event;
  api_calls : list CompletionRequest
}.

(** The two services the bot talks to: what a call of the client of the
    completion API gives back for a request, given the calls made before it,
    and whether Telegram accepts a send ([None]) or the send raises. *)
Record Env : Type := mkEnv {
  create : list CompletionRequest → CompletionRequest → ApiOutcome;
  deliver : list event → event → option str
}.

(** Telegram accepts every send. *)
Definition delivers (env : Env) : Prop := ∀ sent ev, deliver env sent ev = None.

(** [ChatGPTBot]: the attribute set by [__init__]. *)
Record ChatGPTBot : Type := mkBot {
  max_conversation_length : Z
}.

Definition init : ChatGPTBot := {| max_conversation_length := 20 |}.

Definition nl : str := [10%N].

(** 0.7 and 0.1 as the floats of the literals. *)
Definition float_0_7 : spec_float := S754_finite false 6305039478318694 (-53).
Definition float_0_1 : spec_float := S754_finite false 7205759403792794 (-56).

Definition system_prompt : Message :=
  {| msg_role := system;
     content :=
       lit "You are a helpful AI assistant integrated into a Telegram bot. "
       ++ lit "Provide clear, concise, and helpful responses. "
       ++ lit "You can use emojis when appropriate to make conversations more engaging. "
       ++ lit "Keep responses conversational and friendly." |}.

Definition set_conversations (c : gmap Z (list Message)) (w : World) : World :=
  mkWorld c (bot_stats w) (outbox w) (api_calls w).

(** The state once [evs] have been sent. *)
Definition push_events (evs : list event) (w : World) : World :=
  mkWorld (user_conversations w) (bot_stats w) (outbox w ++ evs) (api_calls w).

(** The state once the client has been called with [req]. *)
Definition push_call (req : CompletionRequest) (w : World) : World :=
  mkWorld (user_conversations w) (bot_stats w) (outbox w) (api_calls w ++ [req]).

Section Handlers.

Context (env : Env).

Definition send (ev : event) : prog World exn unit :=
  λ w, match deliver env (outbox w) ev with
       | None => (Ok (), push_events [ev] w)
       | Some cause => (Raise (TelegramError cause), w)
       end.

(** [update.message.reply_text(text, parse_mode=...)] *)
Definition reply_text (update : Update) (text : str) (parse_mode : option str)
  : prog World exn unit :=
  send (ReplyText (effective_chat_id update) text parse_mode).

(** [context.bot.send_chat_action(chat_id=..., action=...)] *)
Definition send_chat_action (chat_id : Z) (action : str) : prog World exn unit :=
  send (ChatAction chat_id action).

(** [openai_client.chat.completions.create(...)]: one call of the client. *)
Definition chat_completions_create (req : CompletionRequest)
  : prog World exn (list (option str)) :=
  λ w, match create env (api_calls w) req with
       | ApiRaise cause => (Raise (ApiError cause), push_call req w)
       | ApiResponse choices => (Ok choices, push_call req w)
       end.

(** [user_conversations[user_id]] *)
Definition conversation (user_id : Z) : prog World exn (list Message) :=
  w ← get;
  match user_conversations w !! user_id with
  | Some h => mret h
  | None => raise (KeyError user_id)
  end.

(** [user_conversations[user_id] = h] *)
Definition set_conversation (user_id : Z) (h : list Message)
  : prog World exn unit :=
  modify (λ w, set_conversations (<[user_id := h]> (user_conversations w)) w).

(** [user_conversations[user_id].append(m)] *)
Definition append (user_id : Z) (m : Message) : prog World exn unit :=
  h ← conversation user_id;
  set_conversation user_id (h ++ [m]).

(** [if user_id not in user_conversations: user_conversations[user_id] = []] *)
Definition ensure_conversation (user_id : Z) : prog World exn unit :=
  w ← get;
  if decide (user_id ∈ dom (user_conversations w)) then mret ()
  else set_conversation user_id [].

Definition welcome_message (first_name : str) : str :=
  lit "Hello " ++ first_name ++ lit "! " ++ [128075%N] ++ nl ++ nl
  ++ lit "I'm an AI assistant powered by ChatGPT. I can help you with:" ++ nl
  ++ [8226%N] ++ lit " Answering questions" ++ nl
  ++ [8226%N] ++ lit " Creative writing" ++ nl
  ++ [8226%N] ++ lit " Problem solving" ++ nl
  ++ [8226%N] ++ lit " General conversation" ++ nl ++ nl
  ++ lit "Just send me a message and I'll respond with AI-generated answers!"
  ++ nl ++ nl
  ++ lit "Use /help to see available commands.".

Definition start_command (update : Update) : prog World exn unit :=
  reply_text update (welcome_message (effective_user_first_name update)) None;;
  ensure_conversation (effective_user_id update).

Definition clear_command (update : Update) : prog World exn unit :=
  let user_id := effective_user_id update in
  w ← get;
  if decide (user_id ∈ dom (user_conversations w)) then
    set_conversation user_id [];;
    reply_text update ([9989%N] ++ lit " Conversation history cleared!") None
  else
    reply_text update
      ([128221%N] ++ lit " No conversation history to clear.") None.

(** [len(user_conversations.get(user_id, []))] *)
Definition conversation_length (user_id : Z) (w : World) : Z :=
  len (default [] (user_conversations w !! user_id)).

(** [now_text] is the formatted [datetime.now()]. *)
Definition status_command (update : Update) (now_text : str)
  : prog World exn unit :=
  w ← get;
  let conversation_length := conversation_length (effective_user_id update) w in
  reply_text update
    ([129302%N] ++ lit " *Bot Status*" ++ nl ++ nl
     ++ [9989%N] ++ lit " Bot is online and operational" ++ nl
     ++ [128172%N] ++ lit " Messages in conversation: "
     ++ repr_int conversation_length ++ nl
     ++ [129504%N] ++ lit " Model: GPT-4o via OpenRouter" ++ nl
     ++ [9200%N] ++ lit " Current time: " ++ now_text ++ nl)
    (Some (lit "Markdown")).

(** The request [generate_chatgpt_response] builds from a history. *)
Definition completion_request (history : list Message) : CompletionRequest :=
  {| model := lit "openai/gpt-4o";
     messages := [system_prompt] ++ history;
     max_tokens := 1000;
     temperature := float_0_7;
     presence_penalty := float_0_1;
     frequency_penalty := float_0_1 |}.

(** [response.choices[0].message.content.strip()] *)
Definition first_choice (choices : list (option str)) : result exn str :=
  match choices with
  | [] => Raise IndexError
  | None :: _ => Raise AttributeError
  | Some text :: _ => Ok (strip text)
  end.

Definition generate_chatgpt_response (user_id : Z) : prog World exn str :=
  try_except
    (history ← conversation user_id;
     choices ← chat_completions_create (completion_request history);
     lift (first_choice choices))
    (λ e, raise (Exception (lit "Failed to generate AI response: " ++ py_str e))).

Definition send_long_message (update : Update) (message : str) (max_length : Z)
  : prog World exn unit :=
  if len message <=? max_length then
    reply_text update message None
  else
    match range 0 (len message) max_length with
    | None => raise ValueError
    | Some starts =>
        for_each starts (λ i,
          let chunk := slice message (Some i) (Some (i + max_length)) in
          reply_text update chunk None)
    end.

Definition error_message (e : exn) : str :=
  [10060%N]
  ++ lit " I'm sorry, I encountered an error while processing your message. "
  ++ lit "Please try again in a moment." ++ nl ++ nl
  ++ lit "Error details: " ++ py_str e.

(** The history after [if len(h) > max: h = h[-max:]]. *)
Definition limited (self : ChatGPTBot) (h : list Message) : list Message :=
  if max_conversation_length self <? len h
  then slice h (Some (- max_conversation_length self)) None
  else h.

Definition handle_message (self : ChatGPTBot) (update : Update)
  : prog World exn unit :=
  let user_message := message_text update in
  let user_id := effective_user_id update in
  ensure_conversation user_id;;
  send_chat_action (effective_chat_id update) (lit "typing");;
  try_except
    (append user_id {| msg_role := user; content := user_message |};;
     h ← conversation user_id;
     (if max_conversation_length self <? len h
      then set_conversation user_id
             (slice h (Some (- max_conversation_length self)) None)
      else mret ());;
     response ← generate_chatgpt_response user_id;
     append user_id {| msg_role := assistant; content := response |};;
     send_long_message update response 4096)
    (λ e, reply_text update (error_message e) None).

End Handlers.

(** What the completion call makes of the answer of the API. *)
Definition completion_result (o : ApiOutcome) : result exn str :=
  match o with
  | ApiRaise cause => Raise (ApiError cause)
  | ApiResponse choices => first_choice choices
  end.

(** [user_conversations.get(user_id, [])] *)
Definition user_conversations_get (user_id : Z) (w : World) : list Message :=
  default [] (user_conversations w !! user_id).

(** [w'] is [w] but for what was sent to Telegram. *)
Definition only_sends (w w' : World) : Prop :=
  user_conversations w' = user_conversations w
  ∧ bot_stats w' = bot_stats w
  ∧ api_calls w' = api_calls w.

(** The state after a handler, returned or raised: the application's error
    handler takes what a handler raises, and the next update is handled in
    the state reached. *)
Definition after {A} (p : prog World exn A) (w : World) : World := (p w).2.

(** A sequence of text messages handled one after the other. *)
Definition handle_messages (env : Env) (self : ChatGPTBot)
    (updates : list Update) (w : World) : World :=
  foldl (λ w u, after (handle_message env self u) w) w updates.

Definition initial_world (start : WebServer.datetime) : World :=
  {| user_conversations := ∅;
     bot_stats := WebServer.initial_stats start;
     outbox := [];
     api_calls := [] |}.

(** *** The other handlers and the application *)

Section Application.

Context (env : Env).

Definition help_text : str :=
  [129302%N] ++ lit " *ChatGPT Telegram Bot Help*" ++ nl ++ nl
  ++ lit "*Available Commands:*" ++ nl
  ++ lit "/start - Start the bot and get welcome message" ++ nl
  ++ lit "/help - Show this help message" ++ nl
  ++ lit "/clear - Clear conversation history" ++ nl
  ++ lit "/status - Show bot status" ++ nl ++ nl
  ++ lit "*How to use:*" ++ nl
  ++ lit "Simply send me any message and I'll respond using ChatGPT!" ++ nl ++ nl
  ++ lit "*Features:*" ++ nl
  ++ [8226%N] ++ lit " Maintains conversation context" ++ nl
  ++ [8226%N] ++ lit " Supports long messages" ++ nl
  ++ [8226%N] ++ lit " Error handling and retry logic" ++ nl
  ++ [8226%N] ++ lit " Real-time responses" ++ nl ++ nl
  ++ lit "*Note:* The bot remembers your last 20 messages for context.".

Definition help_command (update : Update) : prog World exn unit :=
  reply_text env update help_text (Some (lit "Markdown")).

(** [error_handler(update, context)]: [update] is [None] when the object is
    no [Update] or has no message. *)
Definition error_handler (update : option Update) : prog World exn unit :=
  match update with
  | Some update =>
      try_except
        (reply_text env update
           ([10060%N]
            ++ lit " An unexpected error occurred. Please try again later.")
           None)
        (λ _, mret ())
  | None => mret ()
  end.

(** The chunks [send_long_message] sets out to send, in order. *)
Definition chunks (message : str) (max_length : Z) : result exn (list str) :=
  if len message <=? max_length then Ok [message]
  else
    match range 0 (len message) max_length with
    | None => Raise ValueError
    | Some starts =>
        Ok (map (λ i, slice message (Some i) (Some (i + max_length))) starts)
    end.

(** The handlers [main] registers: the four commands and the handler of the
    text messages that are no commands. *)
Inductive handler : Type :=
| StartCommand
| HelpCommand
| ClearCommand
| StatusCommand (now_text : str)
| TextMessage.

Definition run_handler (self : ChatGPTBot) (h : handler) (update : Update)
  : prog World exn unit :=
  match h with
  | StartCommand => start_command env update
  | HelpCommand => help_command update
  | ClearCommand => clear_command env update
  | StatusCommand now_text => status_command env update now_text
  | TextMessage => handle_message env self update
  end.

(** The application runs the handler of an update and gives what it raises
    to [error_handler], registered with [add_error_handler]. This is the case
    of an update that carries a message; [process_incoming] below takes the
    updates without one as well. *)
Definition process_update (self : ChatGPTBot) (h : handler) (update : Update)
  : prog World exn unit :=
  try_except (run_handler self h update) (λ _, error_handler (Some update)).

Definition process_updates (self : ChatGPTBot)
    (updates : list (handler * Update)) (w : World) : World :=
  foldl (λ w hu, after (process_update self hu.1 hu.2) w) w updates.

End Application.

(** *** The updates without a message *)

Section Incoming.

Context (env : Env).

(** An update that [main]'s handlers receive: a message, or an edited
    message, for which [update.message] is [None] while [effective_user] and
    [effective_chat] are those of the edited message. *)
Inductive incoming : Type :=
| NewMessage (update : Update)
| EditedMessage (user_id : Z) (first_name : str) (chat_id : Z).

(** [update.message], when it is not [None]. *)
Definition message_of (i : incoming) : option Update :=
  match i with
  | NewMessage update => Some update
  | EditedMessage _ _ _ => None
  end.

(** A handler on any update. On an update without a message it runs up to
    its first use of [update.message], which raises: [start_command] (line
    68), [help_command] (line 94) and [status_command] (line 121) at their
    [reply_text], [handle_message] at [update.message.text] (line 126), and
    [clear_command] at its [reply_text] (lines 102 and 104), after the
    assignment of line 101. *)
Definition run_handler_any (self : ChatGPTBot) (h : handler) (i : incoming)
  : prog World exn unit :=
  match i with
  | NewMessage update => run_handler env self h update
  | EditedMessage user_id first_name chat_id =>
      match h with
      | StartCommand | HelpCommand | StatusCommand _ =>
          raise (NoMessage (lit "reply_text"))
      | ClearCommand =>
          w ← get;
          (if decide (user_id ∈ dom (user_conversations w))
           then set_conversation user_id []
           else mret ());;
          raise (NoMessage (lit "reply_text"))
      | TextMessage => raise (NoMessage (lit "text"))
      end
  end.

(** The application on any update: [error_handler] sees the same update, and
    its test [update.message] fails for an update without a message. *)
Definition process_incoming (self : ChatGPTBot) (h : handler) (i : incoming)
  : prog World exn unit :=
  try_except (run_handler_any self h i) (λ _, error_handler env (message_of i)).

End Incoming.

(** *** The client of the completion API

    [openai_client = OpenAI(base_url=..., api_key=...)] (lines 40 to 43) gives
    no [max_retries], so the client keeps the default of the library, 2: a
    call of [chat.completions.create] sends the request and sends it again,
    at most twice, while an attempt fails in a way the library retries (no
    connection, a timeout, the status 408, 409, 429 or 500 and above). *)

Definition max_retries : nat := 2.

(** What one attempt ends in: a failure the client retries, or what the call
    gives back without another attempt. *)
Inductive AttemptOutcome : Type :=
| Retryable (cause : str)
| Final (outcome : ApiOutcome).

(** The API and the network: the end of an attempt to send a request, given
    the requests sent before it. *)
Abbreviation Transport :=
  (list CompletionRequest → CompletionRequest → AttemptOutcome).

(** One call of [create] with [retries] retries left: what it gives back and
    the requests it has sent. When the retries are used up the last failure
    is raised. *)
Fixpoint client_create (transport : Transport) (retries : nat)
    (sent : list CompletionRequest) (req : CompletionRequest)
  : ApiOutcome * list CompletionRequest :=
  match transport sent req with
  | Final outcome => (outcome, [req])
  | Retryable cause =>
      match retries with
      | O => (ApiRaise cause, [req])
      | S retries' =>
          let r := client_create transport retries' (sent ++ [req]) req in
          (r.1, req :: r.2)
      end
  end.

(** The requests that have gone to the API over the calls of [create]. *)
Definition requests_sent (transport : Transport)
    (calls : list CompletionRequest) : list CompletionRequest :=
  foldl (λ sent req, sent ++ (client_create transport max_retries sent req).2)
        [] calls.

(** The client as the bot builds it, over a transport. *)
Definition openai_client (transport : Transport)
    (deliver : list event → event → option str) : Env :=
  mkEnv (λ calls req,
           (client_create transport max_retries
              (requests_sent transport calls) req).1)
        deliver.

End Bot.


(** ** Concrete runs *)

Module Scenario.

Import Bot.

Definition telegram_ok : list event → event → option str := λ _ _, None.

(** The API answers every request with one choice. *)
Definition answering (text : str) : Env :=
  mkEnv (λ _ _, ApiResponse [Some text]) telegram_ok.

(** The API call raises on every request. *)
Definition failing (cause : str) : Env :=
  mkEnv (λ _ _, ApiRaise cause) telegram_ok.

Definition hello : Update :=
  {| effective_user_id := 7;
     effective_user_first_name := lit "Ann";
     effective_chat_id := 7;
     message_text := lit "hello" |}.

(** The process after [n] messages of user 7, each answered. *)
Definition answered (n : nat) : World :=
  handle_messages (answering (lit " hi ")) init (replicate n hello)
                  (initial_world 0).

Definition a_10000 : str := replicate (Z.to_nat 10000) 97%N.

(** The body [{"message": {"from": {"id": 42}}}]. *)
Definition message_from_42 : WebServer.json :=
  WebServer.JDict
    [(lit "message",
      WebServer.JDict
        [(lit "from", WebServer.JDict [(lit "id", WebServer.JInt 42)])])].

(** Telegram refuses every send. *)
Definition offline (cause : str) : Env :=
  mkEnv (λ _ _, ApiResponse [Some (lit " hi ")]) (λ _ _, Some cause).

(** The API answers [text]; Telegram refuses the replies with that text and
    accepts every other send. *)
Definition refusing (text : str) (cause : str) : Env :=
  mkEnv (λ _ _, ApiResponse [Some text])
        (λ _ ev, match ev with
                 | ReplyText _ t _ => if bool_decide (t = text) then Some cause
                                      else None
                 | ChatAction _ _ => None
                 end).

Definition other : Update :=
  {| effective_user_id := 8;
     effective_user_first_name := lit "Bob";
     effective_chat_id := 8;
     message_text := lit "hey" |}.

Definition plain : WebServer.Formatting :=
  WebServer.mkFormatting (λ _, lit "2.5") (λ _ _, S754_zero false)
    (λ t _, repr_int t) (λ t, repr_int t).

(** Every attempt to reach the API times out. *)
Definition timing_out : Transport := λ _ _, Retryable (lit "Request timed out.").

(** The API answers the first attempt. *)
Definition reachable (text : str) : Transport :=
  λ _ _, Final (ApiResponse [Some text]).

(** User 7 has sent [/start] and nothing else. *)
Definition started : World :=
  after (start_command (answering []) hello) (initial_world 0).

End Scenario.


(** ** Two requests on the shared [bot_stats]

    run_combined.py starts the web server on its own thread, and the server
    handles its requests on threads that all use the one dictionary
    [bot_stats]. web_server.py creates no lock. The statements of [webhook]
    that touch the dictionary are listed here as the steps between which the
    interpreter can switch threads: [bot_stats['response_count'] += 1] reads
    the entry and stores the sum in two steps. *)

Module Interleaving.

Import WebServer.

Inductive instr : Type :=
| AddActiveUser (key : pykey)          (* [bot_stats['active_users'].add(user_id)] *)
| StoreLastMessageTime (now : datetime)
| LoadResponseCount                    (* read of [bot_stats['response_count']] *)
| StoreResponseCount.                  (* store of the value read, plus one *)

(** A handler on its thread: the steps left, and the count it has read. *)
Record thread : Type := mkThread {
  code : list instr;
  loaded : Z
}.

(** The steps of [webhook] on [bot_stats] once the sender was extracted. *)
Definition webhook_thread (key : pykey) (now : datetime) : thread :=
  {| code := [AddActiveUser key; StoreLastMessageTime now;
              LoadResponseCount; StoreResponseCount];
     loaded := 0 |}.

(** One step of a thread; a thread that has finished does nothing. *)
Definition step (s : Stats) (t : thread) : Stats * thread :=
  match code t with
  | [] => (s, t)
  | AddActiveUser key :: rest =>
      (set_active_users ({[key]} ∪ active_users s) s, mkThread rest (loaded t))
  | StoreLastMessageTime now :: rest =>
      (set_last_message_time (Some now) s, mkThread rest (loaded t))
  | LoadResponseCount :: rest =>
      (s, mkThread rest (response_count s))
  | StoreResponseCount :: rest =>
      (set_response_count (loaded t + 1) s, mkThread rest (loaded t))
  end.

(** The dictionary and the two threads. *)
Record config : Type := mkConfig {
  stats : Stats;
  first : thread;
  second : thread
}.

(** A schedule names the thread that takes each step: [false] the first
    thread, [true] the second. *)
Definition sched_step (c : config) (who : bool) : config :=
  if who then
    let '(s, t) := step (stats c) (second c) in mkConfig s (first c) t
  else
    let '(s, t) := step (stats c) (first c) in mkConfig s t (second c).

Definition run (sched : list bool) (c : config) : config :=
  foldl sched_step c sched.

Definition finished (c : config) : Prop :=
  code (first c) = [] ∧ code (second c) = [].

(** The first thread runs to its end, then the second. *)
Definition serial (c : config) : list bool :=
  replicate (length (code (first c))) false
  ++ replicate (length (code (second c))) true.

(** The second thread runs to its end, then the first. *)
Definition serial_swapped (c : config) : list bool :=
  replicate (length (code (second c))) true
  ++ replicate (length (code (first c))) false.

(** What mutual exclusion around the accesses would give: whatever the
    schedule, the dictionary ends as if one handler had run after the
    other. *)
Definition exclusive (c : config) : Prop :=
  ∀ sched, finished (run sched c) →
    stats (run sched c) = stats (run (serial c) c)
    ∨ stats (run sched c) = stats (run (serial_swapped c) c).

(** A thread that has stored its count, and one that has read the count and
    not yet stored it. *)
Definition stored (t : thread) : bool :=
  match code t with [] => true | _ => false end.

Definition holds_count (t : thread) : bool :=
  match code t with [StoreResponseCount] => true | _ => false end.

(** The thread stands somewhere in the steps of a [webhook_thread]. *)
Definition on_track (t : thread) : Prop :=
  ∃ key now,
    code t = [AddActiveUser key; StoreLastMessageTime now;
              LoadResponseCount; StoreResponseCount]
    ∨ code t = [StoreLastMessageTime now; LoadResponseCount; StoreResponseCount]
    ∨ code t = [LoadResponseCount; StoreResponseCount]
    ∨ code t = [StoreResponseCount]
    ∨ code t = [].

(** What holds of the count all along two [webhook] threads started when the
    count was [r0]: it has grown by one at least once a thread has stored,
    and by no more than the number of threads that have; a count that a
    thread holds lies between [r0] and the count. *)
Definition count_invariant (r0 : Z) (c : config) : Prop :=
  let a := Z.b2z (stored (first c)) in
  let b := Z.b2z (stored (second c)) in
  let n := response_count (stats c) in
  on_track (first c) ∧ on_track (second c)
  ∧ r0 + Z.max a b <= n <= r0 + a + b
  ∧ (holds_count (first c) = true → r0 <= loaded (first c) <= n)
  ∧ (holds_count (second c) = true → r0 <= loaded (second c) <= n).

(** A schedule on which both handlers read the count before either stores. *)
Definition racing : list bool :=
  [false; false; false; true; true; true; false; true].

(** The thread of [webhook] for [key] and [now] has taken [n] of its four
    steps. *)
Definition taken (key : pykey) (now : datetime) (n : nat) (t : thread) : Prop :=
  (n ≤ 4)%nat ∧ code t = drop n (code (webhook_thread key now)).

(** What holds of the active users and of the time of the last message all
    along two [webhook] threads started on the users [old]: a sender is in
    the set from the first step of its thread on, nobody else joins, and
    once a thread has stored its time the time is that of one of the two. *)
Definition users_invariant (old : gset pykey) (key1 : pykey) (now1 : datetime)
    (key2 : pykey) (now2 : datetime) (c : config) : Prop :=
  ∃ n1 n2 : nat,
    taken key1 now1 n1 (first c) ∧ taken key2 now2 n2 (second c)
    ∧ active_users (stats c)
      = (if decide (0 < n1)%nat then {[key1]} else ∅)
        ∪ (if decide (0 < n2)%nat then {[key2]} else ∅) ∪ old
    ∧ ((2 ≤ n1)%nat ∨ (2 ≤ n2)%nat →
       last_message_time (stats c) = Some now1
       ∨ last_message_time (stats c) = Some now2).

End Interleaving.


(** * Properties *)

(** ** Slices and ranges *)

Section SliceFacts.

Context {A : Type}.
Implicit Types s : list A.

Lemma len_nonneg s : 0 <= len s.
Proof. unfold len. lia. Qed.

Lemma len_app s1 s2 : len (s1 ++ s2) = len s1 + len s2.
Proof. unfold len. rewrite length_app. lia. Qed.

(** [s[-n:]] keeps the last [n] elements. *)
Lemma slice_suffix s (n : Z) :
  0 < n → slice s (Some (- n)) None = drop (length s - Z.to_nat n) s.
Proof.
  intros Hn. unfold slice, adjust_index, len.
  destruct (Z.ltb_spec (- n) 0) as [_ | ?]; [| lia].
  rewrite take_ge by (rewrite length_drop; lia).
  f_equal. lia.
Qed.

Lemma slice_suffix_length s (n : Z) :
  0 < n → len (slice s (Some (- n)) None) = Z.min (len s) n.
Proof.
  intros Hn. rewrite slice_suffix by done. unfold len.
  rewrite length_drop. lia.
Qed.

(** [s[i:i+m]] inside the string is the window of width [m] at [i]. *)
Lemma slice_window s (i m : Z) :
  0 <= i <= len s → 0 < m →
  slice s (Some i) (Some (i + m)) = take (Z.to_nat m) (drop (Z.to_nat i) s).
Proof.
  intros Hi Hm. unfold slice, adjust_index, len in *.
  destruct (Z.ltb_spec i 0) as [? | _]; [lia |].
  destruct (Z.ltb_spec (i + m) 0) as [? | _]; [lia |].
  replace (Z.min i (Z.of_nat (length s))) with i by lia.
  destruct (Z.le_gt_cases (i + m) (Z.of_nat (length s))) as [Hle | Hgt].
  - f_equal. lia.
  - rewrite !take_ge; [done | |]; rewrite length_drop; lia.
Qed.

(** Cutting [s] into windows of width [m] and gluing them gives [s] back. *)
Lemma concat_windows (m : nat) :
  (0 < m)%nat → ∀ (n : nat) s, (length s ≤ n * m)%nat →
  concat (map (λ k : nat, take m (drop (k * m) s)) (seq 0 n)) = s.
Proof.
  intros Hm. induction n as [| n IH]; intros s Hlen.
  - destruct s; [done | simpl in Hlen; lia].
  - rewrite <- cons_seq, <- fmap_S_seq. simpl.
    rewrite drop_0. change (map ?f (S <$> ?l)) with (f <$> (S <$> l)).
    rewrite <- list_fmap_compose.
    rewrite <- (take_drop m s) at 2. f_equal.
    rewrite <- (IH (drop m s)) by (rewrite length_drop; lia).
    f_equal. apply list_fmap_ext. intros _ k _. simpl.
    rewrite drop_drop. by rewrite (Nat.add_comm m).
Qed.

End SliceFacts.

Lemma range_positive (n m : Z) :
  0 < n → 0 < m →
  range 0 n m = Some (map (λ k : nat, Z.of_nat k * m)
                          (seq 0 (Z.to_nat ((n + m - 1) / m)))).
Proof.
  intros Hn Hm. unfold range, range_len.
  destruct (Z.eqb_spec m 0) as [? | _]; [lia |].
  destruct (Z.ltb_spec 0 m) as [_ | ?]; [| lia].
  destruct (Z.ltb_spec 0 n) as [_ | ?]; [| lia]. simpl.
  replace (n + m - 1) with (n - 0 - 1 + 1 * m) by lia.
  rewrite Z.div_add by lia. done.
Qed.

(** ** Chunked delivery: [send_long_message] *)

Section Delivery.

Import Bot.

Context (env : Env).

Lemma push_events_nil w : push_events [] w = w.
Proof. destruct w. unfold push_events. simpl. by rewrite app_nil_r. Qed.

Lemma push_events_app evs1 evs2 w :
  push_events evs2 (push_events evs1 w) = push_events (evs1 ++ evs2) w.
Proof. unfold push_events. simpl. by rewrite app_assoc. Qed.

Lemma reply_text_delivered update text mode w :
  delivers env →
  reply_text env update text mode w
  = (Ok (), push_events [ReplyText (effective_chat_id update) text mode] w).
Proof. intros Hd. unfold reply_text, send. by rewrite Hd. Qed.

Lemma for_each_reply_delivered {X} update (f : X → str) (xs : list X) w :
  delivers env →
  for_each xs (λ x, reply_text env update (f x) None) w
  = (Ok (), push_events
              (map (λ x, ReplyText (effective_chat_id update) (f x) None) xs) w).
Proof.
  intros Hd. revert w. induction xs as [| x xs IH]; intros w; simpl.
  - by rewrite push_events_nil.
  - unfold mbind, prog_bind. rewrite reply_text_delivered by done.
    rewrite IH. by rewrite push_events_app.
Qed.

(** The windows [send_long_message] cuts when the text is longer than
    [max_length]. *)
Lemma long_message_windows (message : str) (M : Z) :
  0 < M → M < len message →
  ∃ starts,
    range 0 (len message) M = Some starts
    ∧ map (λ i, slice message (Some i) (Some (i + M))) starts
      = map (λ k : nat, take (Z.to_nat M) (drop (k * Z.to_nat M) message))
            (seq 0 (Z.to_nat ((len message + M - 1) / M))).
Proof.
  intros HM HL. eexists. split; [apply range_positive; lia |].
  rewrite map_map. apply map_ext_in. intros k Hk.
  apply in_seq in Hk.
  pose proof (Z.mul_div_le (len message + M - 1) M HM) as Hq.
  assert (Z.of_nat k * M <= len message) as Hle by nia.
  rewrite slice_window by lia.
  do 2 f_equal. lia.
Qed.

(** C4: with a positive [max_length] and every send accepted,
    [send_long_message] sends ceil(L/M) messages for a text of length L (one
    message for the empty text), the messages glued in the order sent are the
    text, every message but the last has exactly [max_length] characters, and
    a text of 10000 characters with [max_length] 4096 goes out as three
    messages of 4096, 4096 and 1808 characters. *)
Theorem send_long_message_chunks update (message : str) (M : Z) w :
  0 < M → delivers env →
  ∃ chunks : list str,
    send_long_message env update message M w
    = (Ok (), push_events
                (map (λ c, ReplyText (effective_chat_id update) c None) chunks)
                w)
    ∧ len chunks
      = (if len message =? 0 then 1 else (len message + M - 1) / M)
    ∧ concat chunks = message
    ∧ (∀ (i : nat) c, chunks !! i = Some c → (S i < length chunks)%nat →
         len c = M)
    ∧ (len message = 10000 → M = 4096 →
         map len chunks = [4096; 4096; 1808]).
Proof.
  intros HM Hd.
  assert (∃ chunks : list str,
    send_long_message env update message M w
    = (Ok (), push_events
                (map (λ c, ReplyText (effective_chat_id update) c None) chunks)
                w)
    ∧ len chunks
      = (if len message =? 0 then 1 else (len message + M - 1) / M)
    ∧ concat chunks = message
    ∧ (∀ (i : nat) c, chunks !! i = Some c → (S i < length chunks)%nat →
         len c = M)) as (chunks & Hrun & Hcount & Hcat & Hfull).
  { unfold send_long_message.
    pose proof (len_nonneg message) as H0.
    destruct (Z.leb_spec (len message) M) as [Hshort | Hlong].
    - exists [message]. rewrite reply_text_delivered by done.
      repeat split.
      + destruct (Z.eqb_spec (len message) 0) as [_ | Hne]; [done |].
        change (len [message]) with 1.
        apply Z.div_unique with (r := len message - 1); lia.
      + simpl. apply app_nil_r.
      + intros i c _ Hi. simpl in Hi. lia.
    - destruct (long_message_windows message M HM Hlong)
        as (starts & Hrange & Hwin).
      rewrite Hrange.
      rewrite (for_each_reply_delivered update
                 (λ i, slice message (Some i) (Some (i + M)))) by done.
      exists (map (λ i, slice message (Some i) (Some (i + M))) starts).
      rewrite map_map. split; [done |]. rewrite Hwin.
      pose proof (Z.mul_div_le (len message + M - 1) M HM) as Hq.
      pose proof (Z.mul_succ_div_gt (len message + M - 1) M HM) as Hq'.
      set (q := (len message + M - 1) / M) in *.
      repeat split.
      + destruct (Z.eqb_spec (len message) 0) as [? | _]; [lia |].
        unfold len. rewrite length_map, length_seq. nia.
      + apply concat_windows; [lia |]. unfold len in *. nia.
      + intros i c Hi Hlast.
        rewrite length_map, length_seq in Hlast.
        change (map ?f ?l) with (f <$> l) in Hi.
        rewrite list_lookup_fmap in Hi.
        destruct (seq 0 (Z.to_nat q) !! i) as [k |] eqn:Hk; [| done].
        apply lookup_seq in Hk as [-> _]. simpl in Hi.
        injection Hi as <-. unfold len in *.
        rewrite length_take, length_drop. nia. }
  exists chunks. repeat split; try done.
  intros HL ->. rewrite HL in Hcount. simpl in Hcount.
  change ((10000 + 4096 - 1) / 4096) with 3 in Hcount.
  destruct chunks as [| c0 [| c1 [| c2 [| c3 rest]]]];
    unfold len in Hcount; simpl in Hcount; try lia.
  pose proof (Hfull 0%nat c0 eq_refl ltac:(simpl; lia)) as H0.
  pose proof (Hfull 1%nat c1 eq_refl ltac:(simpl; lia)) as H1.
  assert (len (concat [c0; c1; c2]) = 10000) as Hsum by by rewrite Hcat.
  simpl in Hsum. rewrite app_nil_r, !len_app in Hsum.
  simpl. repeat f_equal; lia.
Qed.

End Delivery.

Lemma send_long_message_chunks_witness :
  ∃ chunks : list str,
    Bot.send_long_message (Scenario.answering []) Scenario.hello
      Scenario.a_10000 4096 (Bot.initial_world 0)
    = (Ok (), Bot.push_events (map (λ c, Bot.ReplyText 7 c None) chunks)
                              (Bot.initial_world 0))
    ∧ len chunks = 3
    ∧ concat chunks = Scenario.a_10000
    ∧ map len chunks = [4096; 4096; 1808].
Proof.
  destruct (send_long_message_chunks (Scenario.answering []) Scenario.hello
              Scenario.a_10000 4096 (Bot.initial_world 0))
    as (chunks & Hrun & Hcount & Hcat & _ & Hscenario).
  - lia.
  - intros sent ev. reflexivity.
  - exists chunks. split; [exact Hrun |]. split; [exact Hcount |].
    split; [exact Hcat |]. apply Hscenario; [| reflexivity].
    vm_compute. reflexivity.
Defined.

(** ** One message: [handle_message] *)

Arguments lit : simpl never.
Arguments Bot.error_message : simpl never.
Arguments Bot.py_str : simpl never.
Arguments Bot.completion_request : simpl never.

Lemma bind_run {S E A B} (c : prog S E A) (k : A → prog S E B) (s : S) :
  (c ≫= k) s
  = match c s with
    | (Ok a, s') => k a s'
    | (Raise e, s') => (Raise e, s')
    end.
Proof. reflexivity. Qed.

Section MessageCycle.

Import Bot.

Context (env : Env).

Lemma only_sends_refl w : only_sends w w.
Proof. by repeat split. Qed.

Lemma only_sends_trans w1 w2 w3 :
  only_sends w1 w2 → only_sends w2 w3 → only_sends w1 w3.
Proof. intros (? & ? & ?) (? & ? & ?). repeat split; congruence. Qed.

Lemma send_only_sends ev w : only_sends w (send env ev w).2.
Proof. unfold send. destruct (deliver env _ _); by repeat split. Qed.

Lemma reply_text_only_sends update text mode w :
  only_sends w (reply_text env update text mode w).2.
Proof. apply send_only_sends. Qed.

Lemma for_each_only_sends {X} (xs : list X) (body : X → prog World exn unit) :
  (∀ x w, only_sends w (body x w).2) →
  ∀ w, only_sends w (for_each xs body w).2.
Proof.
  intros Hbody. induction xs as [| x xs IH]; intros w; simpl.
  - apply only_sends_refl.
  - rewrite bind_run. specialize (Hbody x w).
    destruct (body x w) as [[[] | e] w']; simpl in *; [| done].
    eapply only_sends_trans; [exact Hbody | apply IH].
Qed.

Lemma send_long_message_only_sends update message M w :
  only_sends w (send_long_message env update message M w).2.
Proof.
  unfold send_long_message. destruct (_ <=? _).
  - apply reply_text_only_sends.
  - destruct (range _ _ _); [| apply only_sends_refl].
    apply for_each_only_sends. intros. apply reply_text_only_sends.
Qed.

Lemma ensure_conversation_run user_id w :
  ensure_conversation user_id w
  = (Ok (), set_conversations
              (<[user_id := user_conversations_get user_id w]>
                 (user_conversations w)) w).
Proof.
  unfold ensure_conversation, user_conversations_get. rewrite bind_run. simpl.
  destruct (decide _) as [Hin | Hout].
  - apply elem_of_dom in Hin as [h Hh]. rewrite Hh. simpl.
    rewrite insert_id by done. by destruct w.
  - apply not_elem_of_dom in Hout. by rewrite Hout.
Qed.

Lemma conversation_run user_id h w :
  user_conversations w !! user_id = Some h →
  conversation user_id w = (Ok h, w).
Proof. intros Hh. unfold conversation. rewrite bind_run. simpl. by rewrite Hh. Qed.

Lemma append_run user_id h m w :
  user_conversations w !! user_id = Some h →
  append user_id m w
  = (Ok (), set_conversations (<[user_id := h ++ [m]]> (user_conversations w)) w).
Proof.
  intros Hh. unfold append. rewrite bind_run, (conversation_run _ h) by done.
  reflexivity.
Qed.

(** The completion call: one request, built from the stored history, and the
    answer turned into the reply or into the error raised. *)
Lemma generate_chatgpt_response_run user_id h w :
  user_conversations w !! user_id = Some h →
  generate_chatgpt_response env user_id w
  = (match completion_result (create env (api_calls w) (completion_request h)) with
     | Ok reply => Ok reply
     | Raise e =>
         Raise (Exception (lit "Failed to generate AI response: " ++ py_str e))
     end,
     push_call (completion_request h) w).
Proof.
  intros Hh. unfold generate_chatgpt_response, try_except.
  rewrite bind_run, (conversation_run _ h) by done.
  rewrite bind_run. unfold chat_completions_create, completion_result.
  destruct (create env _ _) as [cause | choices]; [done |].
  unfold lift. by destruct (first_choice choices).
Qed.

(** The steps of one message, up to the delivery of the reply. *)
Lemma handle_message_run self update w :
  let user_id := effective_user_id update in
  let typing := ChatAction (effective_chat_id update) (lit "typing") in
  let c := user_conversations w in
  let h0 := user_conversations_get user_id w in
  let h1 := limited self
              (h0 ++ [{| msg_role := user; content := message_text update |}]) in
  let req := completion_request h1 in
  let w3 := push_call req
              (set_conversations (<[user_id := h1]> c) (push_events [typing] w)) in
  handle_message env self update w
  = match deliver env (outbox w) typing with
    | Some cause =>
        (Raise (TelegramError cause), set_conversations (<[user_id := h0]> c) w)
    | None =>
        match completion_result (create env (api_calls w) req) with
        | Raise e =>
            reply_text env update
              (error_message
                 (Exception (lit "Failed to generate AI response: " ++ py_str e)))
              None w3
        | Ok response =>
            try_except
              (send_long_message env update response 4096)
              (λ e, reply_text env update (error_message e) None)
              (set_conversations
                 (<[user_id := h1 ++ [{| msg_role := assistant;
                                         content := response |}]]> c) w3)
        end
    end.
Proof.
  intros user_id typing c h0 h1 req w3. unfold handle_message.
  rewrite bind_run, ensure_conversation_run.
  rewrite bind_run. unfold send_chat_action, send at 1.
  change (outbox (set_conversations _ w)) with (outbox w).
  fold user_id typing c h0.
  destruct (deliver env (outbox w) typing) as [cause |]; [done |].
  unfold try_except at 1.
  rewrite bind_run.
  rewrite (append_run user_id h0) by apply lookup_insert_eq.
  cbn [user_conversations push_events set_conversations].
  rewrite insert_insert_eq.
  rewrite bind_run.
  rewrite (conversation_run user_id (h0 ++ [{| msg_role := user;
                                  content := message_text update |}]))
    by apply lookup_insert_eq.
  rewrite bind_run.
  set (hu := h0 ++ [_]) in *.
  assert (∀ w',
    user_conversations w' = <[user_id := hu]> c →
    (if max_conversation_length self <? len hu
     then set_conversation user_id
            (slice hu (Some (- max_conversation_length self)) None)
     else mret ()) w'
    = (Ok (), set_conversations (<[user_id := h1]> c) w')) as Hlimit.
  { intros w' Hw'. subst h1. unfold limited.
    destruct (_ <? _).
    - unfold set_conversation, modify. by rewrite Hw', insert_insert_eq.
    - destruct w'. simpl in *. by subst. }
  rewrite Hlimit by done. clear Hlimit.
  rewrite bind_run.
  rewrite (generate_chatgpt_response_run user_id h1) by apply lookup_insert_eq.
  change (api_calls (set_conversations _ (set_conversations _
            (push_events _ (set_conversations _ w))))) with (api_calls w).
  fold req.
  destruct (completion_result (create env (api_calls w) req)) as [response | e].
  - rewrite bind_run.
    rewrite (append_run user_id h1) by apply lookup_insert_eq.
    cbn [user_conversations push_call set_conversations].
    rewrite insert_insert_eq. reflexivity.
  - reflexivity.
Qed.

Lemma deliver_reply_only_sends update response w :
  only_sends w
    (try_except (send_long_message env update response 4096)
                (λ e, reply_text env update (error_message e) None) w).2.
Proof.
  unfold try_except.
  pose proof (send_long_message_only_sends update response 4096 w) as Hsend.
  destruct (send_long_message env update response 4096 w) as [[[] | e] w'];
    simpl in *; [done |].
  eapply only_sends_trans; [exact Hsend | apply reply_text_only_sends].
Qed.

(** What one message leaves behind: the statistics untouched; no request and
    no append when the typing indicator cannot be sent; else one request,
    built from the limited history, and the history that follows from the
    answer. *)
Lemma handle_message_after self update w :
  let user_id := effective_user_id update in
  let typing := ChatAction (effective_chat_id update) (lit "typing") in
  let c := user_conversations w in
  let h0 := user_conversations_get user_id w in
  let h1 := limited self
              (h0 ++ [{| msg_role := user; content := message_text update |}]) in
  let req := completion_request h1 in
  let w' := after (handle_message env self update) w in
  bot_stats w' = bot_stats w
  ∧ match deliver env (outbox w) typing with
    | Some _ =>
        api_calls w' = api_calls w
        ∧ user_conversations w' = <[user_id := h0]> c
    | None =>
        api_calls w' = api_calls w ++ [req]
        ∧ user_conversations w'
          = <[user_id :=
                match completion_result (create env (api_calls w) req) with
                | Raise _ => h1
                | Ok response =>
                    h1 ++ [{| msg_role := assistant; content := response |}]
                end]> c
    end.
Proof.
  intros user_id typing c h0 h1 req w'. subst w'. unfold after.
  rewrite handle_message_run. fold user_id typing c h0 h1 req.
  destruct (deliver env (outbox w) typing) as [cause |]; [done |].
  destruct (completion_result (create env (api_calls w) req)) as [response | e].
  - destruct (deliver_reply_only_sends update response
                (set_conversations
                   (<[user_id := h1 ++ [{| msg_role := assistant;
                                           content := response |}]]> c)
                   (push_call req
                      (set_conversations (<[user_id := h1]> c)
                         (push_events [typing] w)))))
      as (Hc & Hs & Ha).
    by rewrite Hc, Hs, Ha.
  - destruct (reply_text_only_sends update
                (error_message
                   (Exception (lit "Failed to generate AI response: "
                               ++ py_str e)))
                None
                (push_call req
                   (set_conversations (<[user_id := h1]> c)
                      (push_events [typing] w))))
      as (Hc & Hs & Ha).
    by rewrite Hc, Hs, Ha.
Qed.

Lemma limited_init_length (h : list Message) :
  len (limited init h) = Z.min (len h) 20.
Proof.
  unfold limited. simpl.
  destruct (Z.ltb_spec 20 (len h)).
  - rewrite slice_suffix_length by lia. done.
  - lia.
Qed.

Lemma limited_init_suffix (h : list Message) :
  limited init h = drop (length h - 20) h.
Proof.
  unfold limited. simpl.
  destruct (Z.ltb_spec 20 (len h)) as [Hlong | Hshort].
  - by rewrite (slice_suffix h 20) by lia.
  - unfold len in Hshort. replace (length h - 20)%nat with 0%nat by lia. done.
Qed.

End MessageCycle.

(** Case analysis on the arguments of [update_bot_stats] and their tests. *)
Ltac stats_cases :=
  repeat match goal with
         | |- context [match ?o with Some _ => _ | None => _ end] => destruct o
         | |- context [if ?b then _ else _] => destruct b
         end.

(** ** The history of a user over the messages *)

Section History.

Import Bot.

Context (env : Env).

(** C1 (the code at the failing input): the maximum is 20; after ten answered
    messages of a user the history holds 20 entries, and after the eleventh
    it holds 21, the reply having been appended after the cut. *)
Theorem history_exceeds_maximum :
  max_conversation_length init = 20
  ∧ conversation_length 7 (Scenario.answered 10) = 20
  ∧ conversation_length 7 (Scenario.answered 11) = 21.
Proof. vm_compute. done. Qed.

Lemma conversation_length_insert user_id u h (w w' : World) :
  user_conversations w' = <[user_id := h]> (user_conversations w) →
  conversation_length u w'
  = if decide (user_id = u) then len h else conversation_length u w.
Proof.
  intros Hw'. unfold conversation_length. rewrite Hw', lookup_insert.
  by destruct (decide (user_id = u)).
Qed.

(** A message leaves the histories of the other users as they were and the
    history of its sender with at most 21 entries: 20 after the user message
    and the cut, one more once the reply is appended. *)
Lemma handle_message_length_bound update u w :
  conversation_length u w <= 21 →
  conversation_length u (after (handle_message env init update) w) <= 21.
Proof.
  intros Hw.
  destruct (handle_message_after env init update w) as [_ Hafter].
  set (h1 := limited init _) in Hafter.
  pose proof (limited_init_length
    (user_conversations_get (effective_user_id update) w
     ++ [{| msg_role := user; content := message_text update |}])) as Hh1.
  fold h1 in Hh1.
  destruct (deliver env _ _) as [cause |].
  - destruct Hafter as [_ Hc].
    rewrite (conversation_length_insert _ _ _ _ _ Hc).
    destruct (decide _) as [<- |]; [| done]. exact Hw.
  - destruct Hafter as [_ Hc].
    rewrite (conversation_length_insert _ _ _ _ _ Hc).
    destruct (decide _) as [_ |]; [| done].
    destruct (completion_result _); [rewrite len_app; unfold len at 2; simpl |];
      lia.
Qed.

Lemma handle_messages_length_bound updates u w :
  conversation_length u w <= 21 →
  conversation_length u (handle_messages env init updates w) <= 21.
Proof.
  revert w. induction updates as [| update updates IH]; intros w Hw; [done |].
  simpl. apply IH. by apply handle_message_length_bound.
Qed.

(** X4: an answered message: the reply is appended after the cut, so the history
    of the sender has min(before + 1, 20) + 1 entries, which is 21 as soon as
    19 entries were stored. *)
Lemma answered_cycle_length update w response :
  let user_id := effective_user_id update in
  let inbound := {| msg_role := user; content := message_text update |} in
  let h := user_conversations_get user_id w ++ [inbound] in
  deliver env (outbox w) (ChatAction (effective_chat_id update) (lit "typing"))
  = None →
  completion_result
    (create env (api_calls w) (completion_request (limited init h)))
  = Ok response →
  let w' := after (handle_message env init update) w in
  user_conversations_get user_id w'
  = drop (length h - 20) h ++ [{| msg_role := assistant; content := response |}]
  ∧ conversation_length user_id w'
    = Z.min (conversation_length user_id w + 1) 20 + 1.
Proof.
  intros user_id inbound h Htyping Hanswer w'.
  destruct (handle_message_after env init update w) as [_ Hafter].
  rewrite Htyping in Hafter. fold user_id inbound h in Hafter.
  rewrite Hanswer in Hafter. destruct Hafter as [_ Hc]. fold w' in Hc.
  assert (user_conversations_get user_id w'
          = limited init h ++ [{| msg_role := assistant; content := response |}])
    as Hget by (unfold user_conversations_get; by rewrite Hc, lookup_insert_eq).
  split.
  - by rewrite Hget, limited_init_suffix.
  - unfold conversation_length. fold (user_conversations_get user_id w').
    rewrite Hget, len_app, limited_init_length. subst h. by rewrite len_app.
Qed.

(** C3 (as amended): when the typing indicator went out and the completion
    call fails, no assistant message is appended: the history of the sender
    is the old history with the user message appended, limited to its last
    20 entries, so its length is min(before + 1, 20), which is before + 1
    when fewer than 20 entries were stored. *)
Theorem failed_completion_history update w e :
  let user_id := effective_user_id update in
  let inbound := {| msg_role := user; content := message_text update |} in
  let h := user_conversations_get user_id w ++ [inbound] in
  deliver env (outbox w) (ChatAction (effective_chat_id update) (lit "typing"))
  = None →
  completion_result
    (create env (api_calls w) (completion_request (limited init h)))
  = Raise e →
  let w' := after (handle_message env init update) w in
  user_conversations_get user_id w' = drop (length h - 20) h
  ∧ last (user_conversations_get user_id w') = Some inbound
  ∧ conversation_length user_id w'
    = Z.min (conversation_length user_id w + 1) 20
  ∧ (conversation_length user_id w < 20 →
     conversation_length user_id w' = conversation_length user_id w + 1).
Proof.
  intros user_id inbound h Htyping Hfail w'.
  destruct (handle_message_after env init update w) as [_ Hafter].
  rewrite Htyping in Hafter. fold user_id inbound h in Hafter.
  rewrite Hfail in Hafter. destruct Hafter as [_ Hc]. fold w' in Hc.
  assert (user_conversations_get user_id w' = limited init h) as Hget.
  { unfold user_conversations_get. by rewrite Hc, lookup_insert_eq. }
  assert (conversation_length user_id w'
          = Z.min (conversation_length user_id w + 1) 20) as Hlen.
  { unfold conversation_length. fold (user_conversations_get user_id w').
    rewrite Hget, limited_init_length. subst h. rewrite len_app. done. }
  rewrite Hget, limited_init_suffix. repeat split.
  - subst h. rewrite length_app. simpl.
    rewrite drop_app_le by lia. apply last_snoc.
  - exact Hlen.
  - intros Hroom. rewrite Hlen. lia.
Qed.

(** C2 (as amended): a message handled by the bot leaves [bot_stats] as it
    was, whatever the outcome; the count of responses, the active users and
    the time of the last message change where [update_bot_stats] is called
    with a user id that is not zero: the count grows by one, the id joins the
    active users, and the time read from the clock is stored. *)
Theorem stats_updated_by_update_bot_stats_only self update w :
  bot_stats (after (handle_message env self update) w) = bot_stats w
  ∧ ∀ status api_status response_time (u : Z) now s,
      u ≠ 0 →
      let s' := WebServer.update_bot_stats status api_status response_time
                  (Some u) now s in
      WebServer.response_count s' = WebServer.response_count s + 1
      ∧ WebServer.KInt u ∈ WebServer.active_users s'
      ∧ WebServer.last_message_time s' = Some now.
Proof.
  split; [apply (handle_message_after env self update w) |].
  intros status api_status response_time u now s Hu.
  unfold WebServer.update_bot_stats.
  destruct (Z.eqb_spec u 0) as [? | _]; [done |]. simpl.
  split; [| split].
  - stats_cases; reflexivity.
  - stats_cases; simpl; set_solver.
  - stats_cases; reflexivity.
Qed.

End History.

Lemma failed_completion_history_witness :
  let w := Scenario.answered 10 in
  let w' := Bot.after (Bot.handle_message (Scenario.failing (lit "timeout"))
                         Bot.init Scenario.hello) w in
  last (Bot.user_conversations_get 7 w')
  = Some (Bot.mkMessage Bot.user (lit "hello"))
  ∧ Bot.conversation_length 7 w' = Z.min (20 + 1) 20.
Proof.
  destruct (failed_completion_history (Scenario.failing (lit "timeout"))
              Scenario.hello (Scenario.answered 10)
              (Bot.ApiError (lit "timeout")) eq_refl eq_refl)
    as (_ & Hlast & Hlen & _).
  split; [exact Hlast | exact Hlen].
Defined.

(** The claim C3 as it is written fails on a full history: 20 entries before
    the failed cycle and 20 after it. *)
Lemma failed_cycle_at_capacity :
  let w := Scenario.answered 10 in
  let w' := Bot.after (Bot.handle_message (Scenario.failing (lit "timeout"))
                         Bot.init Scenario.hello) w in
  Bot.conversation_length 7 w = 20
  ∧ Bot.conversation_length 7 w' = 20
  ∧ ¬ (Bot.conversation_length 7 w' = Bot.conversation_length 7 w + 1).
Proof.
  assert (Bot.conversation_length 7 (Scenario.answered 10) = 20) as Hbefore
    by (vm_compute; reflexivity).
  assert (Bot.conversation_length 7
            (Bot.after (Bot.handle_message (Scenario.failing (lit "timeout"))
                          Bot.init Scenario.hello) (Scenario.answered 10)) = 20)
    as Hafter by (vm_compute; reflexivity).
  cbv zeta. rewrite Hbefore, Hafter. repeat split. lia.
Qed.

Lemma stats_updated_by_update_bot_stats_only_witness :
  Bot.bot_stats (Bot.after (Bot.handle_message (Scenario.answering (lit " hi "))
                              Bot.init Scenario.hello) (Bot.initial_world 0))
  = Bot.bot_stats (Bot.initial_world 0)
  ∧ WebServer.response_count
      (WebServer.update_bot_stats None None None (Some 7) 100
         (WebServer.initial_stats 0)) = 0 + 1.
Proof.
  destruct (stats_updated_by_update_bot_stats_only
              (Scenario.answering (lit " hi ")) Bot.init Scenario.hello
              (Bot.initial_world 0)) as [Hkeep Hupdate].
  split; [exact Hkeep |].
  destruct (Hupdate None None None 7 100 (WebServer.initial_stats 0))
    as (Hcount & _ & _); [lia | exact Hcount].
Defined.

(** The claim C2 as it is written fails on the first message of a user: the
    message is answered and the reply delivered, and [bot_stats] is as the
    module created it. *)
Lemma answered_message_leaves_bot_stats :
  let w := Bot.initial_world 0 in
  let w' := Bot.after (Bot.handle_message (Scenario.answering (lit " hi "))
                         Bot.init Scenario.hello) w in
  Bot.outbox w'
  = [Bot.ChatAction 7 (lit "typing"); Bot.ReplyText 7 (lit "hi") None]
  ∧ Bot.user_conversations_get 7 w'
    = [Bot.mkMessage Bot.user (lit "hello");
       Bot.mkMessage Bot.assistant (lit "hi")]
  ∧ ¬ (WebServer.response_count (Bot.bot_stats w')
       = WebServer.response_count (Bot.bot_stats w) + 1)
  ∧ (WebServer.KInt 7 ∉ WebServer.active_users (Bot.bot_stats w'))
  ∧ WebServer.last_message_time (Bot.bot_stats w') = None.
Proof.
  cbv zeta.
  assert (Bot.bot_stats
            (Bot.after (Bot.handle_message (Scenario.answering (lit " hi "))
                          Bot.init Scenario.hello) (Bot.initial_world 0))
          = WebServer.initial_stats 0) as -> by reflexivity.
  split; [vm_compute; reflexivity |].
  split; [vm_compute; reflexivity |].
  split; [simpl; lia |].
  split; [simpl; set_solver | reflexivity].
Qed.

(** ** The completion call: [generate_chatgpt_response] *)

Lemma lstrip_spec (s : str) :
  ∃ l, s = l ++ lstrip s
       ∧ Forall (λ c, isspace c = true) l
       ∧ ∀ c rest, lstrip s = c :: rest → isspace c = false.
Proof.
  induction s as [| a s (l & Hs & Hl & Hhead)]; simpl.
  - exists []. repeat split; [constructor | discriminate].
  - destruct (isspace a) eqn:Ha.
    + exists (a :: l). repeat split; [by rewrite Hs at 1 | by constructor | done].
    + exists []. repeat split; [constructor |].
      intros c rest [= <- _]. exact Ha.
Qed.

(** [strip] removes white space, and only white space, from both ends. *)
Lemma strip_spec (s : str) :
  ∃ l r, s = l ++ strip s ++ r
         ∧ Forall (λ c, isspace c = true) l
         ∧ Forall (λ c, isspace c = true) r
         ∧ (∀ c rest, strip s = c :: rest → isspace c = false)
         ∧ (∀ c front, strip s = front ++ [c] → isspace c = false).
Proof.
  destruct (lstrip_spec (rev s)) as (r' & Hrev & Hr' & Hlast).
  assert (s = rstrip s ++ rev r') as Hs.
  { unfold rstrip. rewrite <- rev_app_distr, <- Hrev. by rewrite rev_involutive. }
  destruct (lstrip_spec (rstrip s)) as (l & Hl & Hspace & Hhead).
  exists l, (rev r'). fold (strip s) in Hl, Hhead. repeat split.
  - rewrite app_assoc, <- Hl. exact Hs.
  - exact Hspace.
  - rewrite rev_alt, <- reverse_nil. fold (reverse r').
    by apply Forall_reverse.
  - exact Hhead.
  - intros c front Hstrip. apply (Hlast c (rev (l ++ front))).
    assert (rstrip s = (l ++ front) ++ [c]) as Hend
      by (rewrite <- app_assoc, <- Hstrip; exact Hl).
    unfold rstrip in Hend. apply (f_equal (@rev N)) in Hend.
    rewrite rev_involutive in Hend. rewrite Hend.
    by rewrite rev_app_distr.
Qed.

Section Completion.

Import Bot.

Context (env : Env).

(** C5: for a user with the stored history [h], [generate_chatgpt_response]
    issues the request whose messages are the system prompt followed by [h]
    in its order, with model "openai/gpt-4o", max_tokens 1000, temperature
    0.7, presence and frequency penalty 0.1, and when the answer has a first
    choice with a text, it returns that text stripped of white space at both
    ends. *)
Theorem generate_chatgpt_response_request user_id h w :
  user_conversations w !! user_id = Some h →
  let req := completion_request h in
  api_calls (after (generate_chatgpt_response env user_id) w)
  = api_calls w ++ [req]
  ∧ messages req = system_prompt :: h
  ∧ msg_role system_prompt = system
  ∧ model req = lit "openai/gpt-4o"
  ∧ max_tokens req = 1000
  ∧ temperature req = float_0_7 ∧ nearest_double float_0_7 7 10
  ∧ presence_penalty req = float_0_1
  ∧ frequency_penalty req = float_0_1 ∧ nearest_double float_0_1 1 10
  ∧ ∀ text rest,
      create env (api_calls w) req = ApiResponse (Some text :: rest) →
      (generate_chatgpt_response env user_id w).1 = Ok (strip text)
      ∧ ∃ l r, text = l ++ strip text ++ r
               ∧ Forall (λ c, isspace c = true) l
               ∧ Forall (λ c, isspace c = true) r.
Proof.
  intros Hh req. unfold after.
  rewrite (generate_chatgpt_response_run env user_id h w Hh). fold req.
  do 10 (split; [try reflexivity; repeat split; vm_compute; congruence |]).
  intros text rest Hanswer. simpl. rewrite Hanswer. split; [done |].
  destruct (strip_spec text) as (l & r & Htext & Hl & Hr & _).
  by exists l, r.
Qed.

(** X16: without a stored history for the user the call raises before any
    request is made, and the error names the user id, the key that was not
    found; [handle_message] creates the entry before it calls. *)
Lemma generate_chatgpt_response_no_history user_id w :
  user_conversations w !! user_id = None →
  generate_chatgpt_response env user_id w
  = (Raise (Exception (lit "Failed to generate AI response: "
                       ++ repr_int user_id)), w).
Proof.
  intros Hnone. unfold generate_chatgpt_response, try_except.
  rewrite bind_run. unfold conversation. rewrite bind_run. simpl.
  by rewrite Hnone.
Qed.

(** For a user with the stored history [h], [generate_chatgpt_response]
    calls the client once, whatever the answer, and every failure of the
    call is raised as one [Exception] whose text is "Failed to generate AI
    response: " followed by the text of the cause: the error raised by the
    call, the [IndexError] of an empty list of choices, or the
    [AttributeError] of a choice without text. *)
Lemma generate_chatgpt_response_raises user_id h w :
  user_conversations w !! user_id = Some h →
  let req := completion_request h in
  let failed e :=
    (generate_chatgpt_response env user_id w).1
    = Raise (Exception (lit "Failed to generate AI response: " ++ py_str e)) in
  api_calls (after (generate_chatgpt_response env user_id) w)
  = api_calls w ++ [req]
  ∧ (∀ e, completion_result (create env (api_calls w) req) = Raise e → failed e)
  ∧ (∀ cause, create env (api_calls w) req = ApiRaise cause →
       failed (ApiError cause) ∧ py_str (ApiError cause) = cause)
  ∧ (create env (api_calls w) req = ApiResponse [] → failed IndexError)
  ∧ (∀ rest, create env (api_calls w) req = ApiResponse (None :: rest) →
       failed AttributeError).
Proof.
  intros Hh req failed. subst failed. unfold after.
  rewrite (generate_chatgpt_response_run env user_id h w Hh). fold req. simpl.
  split; [done |]. split; [| split; [| split]].
  - intros e He. by rewrite He.
  - intros cause Hcause. by rewrite Hcause.
  - intros Hempty. by rewrite Hempty.
  - intros rest Hrest. by rewrite Hrest.
Qed.

End Completion.

Lemma generate_chatgpt_response_request_witness :
  let h := [Bot.mkMessage Bot.user (lit "hello");
            Bot.mkMessage Bot.assistant (lit "hi")] in
  let w := Scenario.answered 1 in
  let env := Scenario.answering (lit " hi ") in
  Bot.api_calls (Bot.after (Bot.generate_chatgpt_response env 7) w)
  = Bot.api_calls w ++ [Bot.completion_request h]
  ∧ Bot.messages (Bot.completion_request h) = Bot.system_prompt :: h
  ∧ (Bot.generate_chatgpt_response env 7 w).1 = Ok (lit "hi").
Proof.
  destruct (generate_chatgpt_response_request
              (Scenario.answering (lit " hi ")) 7
              [Bot.mkMessage Bot.user (lit "hello");
               Bot.mkMessage Bot.assistant (lit "hi")]
              (Scenario.answered 1) eq_refl)
    as (Hcalls & Hmessages & _ & _ & _ & _ & _ & _ & _ & _ & Hreturn).
  split; [exact Hcalls |]. split; [exact Hmessages |].
  exact (proj1 (Hreturn (lit " hi ") [] eq_refl)).
Defined.

(** ** Clearing the history: [clear_command] *)

Section Clear.

Import Bot.

Context (env : Env).

Lemma clear_command_conversations update w :
  user_conversations (after (clear_command env update) w)
  = if decide (effective_user_id update ∈ dom (user_conversations w))
    then <[effective_user_id update := []]> (user_conversations w)
    else user_conversations w.
Proof.
  unfold after, clear_command. rewrite bind_run. simpl.
  destruct (decide _) as [Hin | Hout].
  - rewrite bind_run. unfold set_conversation, modify.
    apply (reply_text_only_sends env).
  - apply (reply_text_only_sends env).
Qed.

(** C9: whatever the state, after [clear_command] the history read for the
    user is empty (its length, as [status_command] reports it, is 0), and a
    second [clear_command] leaves the conversations as the first left them. *)
Theorem clear_command_empties update w :
  let user_id := effective_user_id update in
  let w1 := after (clear_command env update) w in
  user_conversations_get user_id w1 = []
  ∧ conversation_length user_id w1 = 0
  ∧ user_conversations (after (clear_command env update) w1)
    = user_conversations w1.
Proof.
  intros user_id w1.
  assert (user_conversations_get user_id w1 = []) as Hget.
  { unfold user_conversations_get. subst w1.
    rewrite clear_command_conversations. fold user_id.
    destruct (decide _) as [Hin | Hout].
    - by rewrite lookup_insert_eq.
    - apply not_elem_of_dom in Hout. by rewrite Hout. }
  split; [exact Hget |]. split.
  - unfold conversation_length. fold (user_conversations_get user_id w1).
    by rewrite Hget.
  - rewrite clear_command_conversations. fold user_id.
    destruct (decide _) as [Hin | Hout]; [| done].
    apply insert_id. apply elem_of_dom in Hin as [h Hh].
    unfold user_conversations_get in Hget. rewrite Hh in Hget. simpl in Hget.
    by subst h.
Qed.

End Clear.

(** ** The webhook of the dashboard *)

Section Webhook.

Import WebServer.

Lemma dict_get_Some k d v : dict_get k d = Some v → k ∈ d.*1.
Proof.
  induction d as [| [k' v'] d IH]; simpl; [done |].
  case_bool_decide as Hk.
  - intros _. subst k'. apply list_elem_of_here.
  - intros Hd. apply list_elem_of_further. by apply IH.
Qed.


Ltac run_webhook :=
  unfold webhook, try_except, mbind, prog_bind, lift, modify, mret, prog_ret.

(** [webhook] answers every request: with 200 and "ok" after counting the
    message, or with the statistics untouched and either 200 and
    "no_message" or 500 and the error. *)
Lemma webhook_cases request_json now s :
  (∃ key, webhook request_json now s
          = (Ok (StatusBody (lit "ok"), 200), counted key now s))
  ∨ webhook request_json now s = (Ok (StatusBody (lit "no_message"), 200), s)
  ∨ ∃ e, webhook request_json now s = (Ok (ErrorBody e, 500), s).
Proof.
  run_webhook.
  destruct request_json as [update_data | e]; [| right; right; by exists e].
  destruct (truthy update_data); [| right; by left].
  destruct (contains (lit "message") update_data) as [[] | e];
    [| right; by left | right; right; by exists e].
  destruct (subscript update_data (lit "message")) as [message | e];
    [| right; right; by exists e].
  destruct (subscript message (lit "from")) as [sender | e];
    [| right; right; by exists e].
  destruct (subscript sender (lit "id")) as [user_id | e];
    [| right; right; by exists e].
  destruct (hash_key user_id) as [key | e]; [| right; right; by exists e].
  left. by exists key.
Qed.



End Webhook.



(** ** [update_bot_stats] *)

Section UpdateBotStats.

Import WebServer.

(** C10: [update_bot_stats] takes a falsy argument as one that is not
    supplied. With [user_id] 0 or not supplied, the active users, the time of
    the last message and the count of responses stay as they were, whatever
    the other arguments; with [response_time] 0.0 (of either sign) or not
    supplied the average response time stays; with an empty string or nothing
    for [status] or [api_status] that field stays; and a call with only such
    arguments changes nothing. *)
Theorem update_bot_stats_falsy status api_status response_time user_id now s :
  let unchanged_counters s' :=
    active_users s' = active_users s
    ∧ last_message_time s' = last_message_time s
    ∧ response_count s' = response_count s in
  unchanged_counters
    (update_bot_stats status api_status response_time (Some 0) now s)
  ∧ unchanged_counters
      (update_bot_stats status api_status response_time None now s)
  ∧ (∀ sign,
       average_response_time
         (update_bot_stats status api_status (Some (S754_zero sign)) user_id
            now s)
       = average_response_time s)
  ∧ average_response_time
      (update_bot_stats status api_status None user_id now s)
    = average_response_time s
  ∧ WebServer.status
      (update_bot_stats (Some []) api_status response_time user_id now s)
    = WebServer.status s
  ∧ WebServer.status
      (update_bot_stats None api_status response_time user_id now s)
    = WebServer.status s
  ∧ WebServer.api_status
      (update_bot_stats status (Some []) response_time user_id now s)
    = WebServer.api_status s
  ∧ WebServer.api_status
      (update_bot_stats status None response_time user_id now s)
    = WebServer.api_status s
  ∧ (∀ sign,
       update_bot_stats (Some []) (Some []) (Some (S754_zero sign)) (Some 0)
         now s = s)
  ∧ update_bot_stats None None None None now s = s.
Proof.
  intros unchanged_counters. subst unchanged_counters.
  unfold update_bot_stats.
  repeat split; try intros sign; simpl; stats_cases; reflexivity.
Qed.

End UpdateBotStats.

(** ** Two webhook requests at once *)

Section TwoRequests.

Import WebServer Interleaving.

(** A [webhook_thread] that runs alone does what [webhook] does to
    [bot_stats] in one piece. *)
Lemma webhook_thread_alone key now s l :
  let c := mkConfig s (webhook_thread key now) (mkThread [] l) in
  stats (run (serial c) c) = counted key now s.
Proof. reflexivity. Qed.

Ltac still_on_track key now :=
  exists key, now;
  first [ by left | by right; left | by right; right; left
        | by right; right; right; left | by right; right; right; right ].

Lemma count_invariant_step r0 c who :
  count_invariant r0 c → count_invariant r0 (sched_step c who).
Proof.
  destruct c as [s [code1 l1] [code2 l2]].
  unfold count_invariant, on_track, stored, holds_count. simpl.
  intros ((k1 & n1 & H1) & (k2 & n2 & H2) & Hn & Hl1 & Hl2).
  destruct H1 as [H1 | [H1 | [H1 | [H1 | H1]]]];
    destruct H2 as [H2 | [H2 | [H2 | [H2 | H2]]]]; subst code1 code2;
    destruct who; simpl in *;
    (split; [still_on_track k1 n1 |]); (split; [still_on_track k2 n2 |]);
    repeat split; intros; try discriminate; try lia;
    try (specialize (Hl1 eq_refl)); try (specialize (Hl2 eq_refl)); lia.
Qed.

Lemma count_invariant_run r0 sched c :
  count_invariant r0 c → count_invariant r0 (run sched c).
Proof.
  revert c. induction sched as [| who sched IH]; intros c Hc; [done |].
  apply IH. by apply count_invariant_step.
Qed.

(** C7 (as amended): no lock guards [bot_stats]. Two webhook updates whose
    steps do not interleave both take effect, in either order; on every
    schedule that lets both finish the count of responses has grown by one
    at least and by two at most; and on the schedule [racing], where both
    read the count before either stores it, it has grown by one only. *)
Theorem webhook_updates_interleaved s key1 now1 key2 now2 :
  let c := mkConfig s (webhook_thread key1 now1) (webhook_thread key2 now2) in
  stats (run (serial c) c) = counted key2 now2 (counted key1 now1 s)
  ∧ stats (run (serial_swapped c) c) = counted key1 now1 (counted key2 now2 s)
  ∧ (∀ sched, finished (run sched c) →
       response_count s + 1 <= response_count (stats (run sched c))
                            <= response_count s + 2)
  ∧ finished (run racing c)
  ∧ response_count (stats (run racing c)) = response_count s + 1.
Proof.
  intros c. split; [reflexivity |]. split; [reflexivity |].
  split; [| split; [by split | reflexivity]].
  intros sched [Hfirst Hsecond].
  assert (count_invariant (response_count s) c) as Hstart.
  { unfold count_invariant. simpl.
    split; [still_on_track key1 now1 |]. split; [still_on_track key2 now2 |].
    repeat split; intros; try discriminate; lia. }
  apply (count_invariant_run _ sched) in Hstart.
  destruct Hstart as (_ & _ & Hn & _). unfold stored in Hn.
  rewrite Hfirst, Hsecond in Hn. simpl in Hn. lia.
Qed.

End TwoRequests.

Lemma webhook_updates_interleaved_witness :
  let c := Interleaving.mkConfig (WebServer.initial_stats 0)
             (Interleaving.webhook_thread (WebServer.KInt 1) 10)
             (Interleaving.webhook_thread (WebServer.KInt 2) 20) in
  Interleaving.finished (Interleaving.run Interleaving.racing c)
  ∧ 0 + 1 <= WebServer.response_count
               (Interleaving.stats (Interleaving.run Interleaving.racing c))
          <= 0 + 2.
Proof.
  destruct (webhook_updates_interleaved (WebServer.initial_stats 0)
              (WebServer.KInt 1) 10 (WebServer.KInt 2) 20)
    as (_ & _ & Hbounds & Hfinished & _).
  split; [exact Hfinished |].
  apply (Hbounds Interleaving.racing). split; reflexivity.
Defined.

(** The claim C7 as it is written fails on two requests with senders 1 and
    2: on the schedule [racing] both are counted as one, which neither order
    of the two handlers gives. *)
Lemma webhook_updates_not_exclusive :
  ¬ Interleaving.exclusive
      (Interleaving.mkConfig (WebServer.initial_stats 0)
         (Interleaving.webhook_thread (WebServer.KInt 1) 10)
         (Interleaving.webhook_thread (WebServer.KInt 2) 20)).
Proof.
  intros Hexclusive.
  destruct (Hexclusive Interleaving.racing) as [Hserial | Hserial].
  - split; reflexivity.
  - apply (f_equal WebServer.response_count) in Hserial. discriminate Hserial.
  - apply (f_equal WebServer.response_count) in Hserial. discriminate Hserial.
Qed.


(** * Further properties of the handlers *)

(** ** [handle_message]: the other users, the request, the failures *)

Section MoreMessages.

Import Bot.

Context (env : Env).

(** X1: a message changes the stored history of no user but its sender,
    whatever the API and Telegram do. *)
Theorem handle_message_other_users self update u w :
  u ≠ effective_user_id update →
  user_conversations (after (handle_message env self update) w) !! u
  = user_conversations w !! u.
Proof.
  intros Hu.
  destruct (handle_message_after env self update w) as [_ Hafter].
  destruct (deliver env _ _); destruct Hafter as [_ ->];
    by rewrite lookup_insert_ne.
Qed.

(** Once the typing indicator is out, the cycle calls the client once; the
    messages of the request are the system prompt and then the last 20
    entries of the history with the inbound message appended, so at most 21
    messages, the last of them the inbound message. *)
Lemma handle_message_request update w :
  let inbound := {| msg_role := user; content := message_text update |} in
  let h := user_conversations_get (effective_user_id update) w ++ [inbound] in
  deliver env (outbox w) (ChatAction (effective_chat_id update) (lit "typing"))
  = None →
  ∃ req,
    api_calls (after (handle_message env init update) w) = api_calls w ++ [req]
    ∧ messages req = system_prompt :: drop (length h - 20) h
    ∧ len (messages req) <= 21
    ∧ last (messages req) = Some inbound.
Proof.
  intros inbound h Htyping.
  destruct (handle_message_after env init update w) as [_ Hafter].
  rewrite Htyping in Hafter. destruct Hafter as [Hcalls _].
  fold inbound h in Hcalls.
  exists (completion_request (limited init h)). split; [exact Hcalls |].
  pose proof (limited_init_length h) as Hlen.
  rewrite limited_init_suffix in *.
  assert (last (drop (length h - 20) h) = Some inbound) as Hlast.
  { subst h. rewrite length_app. simpl.
    rewrite drop_app_le by lia. apply last_snoc. }
  split; [reflexivity |]. split.
  - change (messages _) with ([system_prompt] ++ drop (length h - 20) h).
    rewrite len_app. change (len [system_prompt]) with 1. lia.
  - change (messages _) with (system_prompt :: drop (length h - 20) h).
    destruct (drop (length h - 20) h) as [| m rest]; [discriminate | exact Hlast].
Qed.

(** X6: when the typing indicator cannot be sent, the handler raises the
    error of Telegram before anything else happens: no request, nothing
    sent, the history read for the sender as before; only the empty entry of
    a new sender has been created. *)
Theorem typing_failure_aborts self update w cause :
  let user_id := effective_user_id update in
  deliver env (outbox w) (ChatAction (effective_chat_id update) (lit "typing"))
  = Some cause →
  let w' := after (handle_message env self update) w in
  (handle_message env self update w).1 = Raise (TelegramError cause)
  ∧ api_calls w' = api_calls w
  ∧ outbox w' = outbox w
  ∧ (∀ u, user_conversations_get u w' = user_conversations_get u w)
  ∧ user_id ∈ dom (user_conversations w').
Proof.
  intros user_id Htyping w'. subst w'. unfold after.
  rewrite handle_message_run, Htyping. simpl.
  repeat split.
  - intros u. unfold user_conversations_get. simpl.
    destruct (decide (user_id = u)) as [<- | Hne].
    + rewrite lookup_insert_eq. done.
    + by rewrite lookup_insert_ne.
  - apply elem_of_dom. rewrite lookup_insert_eq. done.
Qed.

(** [send_long_message] sends the chunks one after the other. *)
Lemma send_long_message_for_each update message M w :
  send_long_message env update message M w
  = match chunks message M with
    | Ok cs => for_each cs (λ c, reply_text env update c None) w
    | Raise e => (Raise e, w)
    end.
Proof.
  unfold send_long_message, chunks.
  destruct (len message <=? M).
  - simpl. rewrite bind_run. by destruct (reply_text _ _ _ _ _) as [[[] | e] w'].
  - destruct (range 0 (len message) M) as [starts |]; [| done].
    generalize w. induction starts as [| i starts IH]; intros w0; [done |].
    simpl. rewrite !bind_run.
    destruct (reply_text _ _ _ _ _) as [[[] | e] w']; [apply IH | done].
Qed.

Lemma chunks_concat message M cs :
  0 < M → chunks message M = Ok cs → concat cs = message.
Proof.
  intros HM. unfold chunks.
  destruct (Z.leb_spec (len message) M) as [Hshort | Hlong].
  - intros [= <-]. simpl. apply app_nil_r.
  - destruct (long_message_windows message M HM Hlong) as (starts & -> & Hwin).
    intros [= <-]. rewrite Hwin.
    pose proof (Z.mul_succ_div_gt (len message + M - 1) M HM) as Hq.
    apply concat_windows; [lia |]. unfold len in *. nia.
Qed.

(** What has gone out when the chunks are sent: a prefix of them, all of
    them exactly when no send was refused. *)
Lemma for_each_reply_prefix update (cs : list str) w :
  ∃ n : nat,
    (n ≤ length cs)%nat
    ∧ (for_each cs (λ c, reply_text env update c None) w).2
      = push_events
          (map (λ c, ReplyText (effective_chat_id update) c None) (take n cs)) w
    ∧ ((for_each cs (λ c, reply_text env update c None) w).1 = Ok ()
       ↔ n = length cs).
Proof.
  revert w. induction cs as [| c cs IH]; intros w.
  - exists 0%nat. simpl. by rewrite push_events_nil.
  - simpl. rewrite bind_run.
    destruct (deliver env (outbox w)
                (ReplyText (effective_chat_id update) c None))
      as [cause |] eqn:Hdeliver.
    + assert (reply_text env update c None w = (Raise (TelegramError cause), w))
        as -> by (unfold reply_text, send; by rewrite Hdeliver).
      exists 0%nat. simpl. rewrite push_events_nil.
      split; [lia |]. split; [done |]. split; [done | intros; lia].
    + assert (reply_text env update c None w
              = (Ok (), push_events
                          [ReplyText (effective_chat_id update) c None] w))
        as -> by (unfold reply_text, send; by rewrite Hdeliver).
      destruct (IH (push_events
                      [ReplyText (effective_chat_id update) c None] w))
        as (n & Hn & Hsent & Hall).
      exists (S n). simpl. split; [lia |]. rewrite Hsent, push_events_app.
      split; [done |]. rewrite Hall. split; lia.
Qed.

(** X10: [send_long_message] sends its chunks in order and stops at the first
    send that Telegram refuses: what has gone out is a prefix of the chunks,
    and the call returns without an error exactly when all of them went
    out. *)
Theorem send_long_message_sends_prefix update message M cs w :
  chunks message M = Ok cs →
  ∃ n : nat,
    (n ≤ length cs)%nat
    ∧ outbox (after (send_long_message env update message M) w)
      = outbox w
        ++ map (λ c, ReplyText (effective_chat_id update) c None) (take n cs)
    ∧ ((send_long_message env update message M w).1 = Ok () ↔ n = length cs).
Proof.
  intros Hcs. unfold after. rewrite send_long_message_for_each, Hcs.
  destruct (for_each_reply_prefix update cs w) as (n & Hn & Hsent & Hall).
  exists n. split; [done |]. split; [by rewrite Hsent | done].
Qed.

(** X9: the length limit is not checked: for a text that is not empty, a
    [max_length] of 0 raises the [ValueError] of [range] with nothing sent,
    and a negative [max_length] returns with nothing sent and no error. *)
Theorem send_long_message_bad_length update message w :
  message ≠ [] →
  send_long_message env update message 0 w = (Raise ValueError, w)
  ∧ ∀ M, M < 0 → send_long_message env update message M w = (Ok (), w).
Proof.
  intros Hmessage.
  assert (0 < len message) as Hlen
    by (destruct message; [done | unfold len; simpl; lia]).
  split.
  - unfold send_long_message.
    destruct (Z.leb_spec (len message) 0) as [? | _]; [lia | done].
  - intros M HM. unfold send_long_message, range, range_len.
    destruct (Z.leb_spec (len message) M) as [? | _]; [lia |].
    destruct (Z.eqb_spec M 0) as [? | _]; [lia |].
    destruct (Z.ltb_spec 0 M) as [? | _]; [lia |].
    destruct (Z.ltb_spec (len message) 0) as [? | _]; [lia |].
    rewrite andb_false_r. done.
Qed.

(** X7: when Telegram accepts every send and the completion call fails, the
    handler returns without an error, and what it has sent is the typing
    indicator and then one notice that ends with "Error details: Failed to
    generate AI response: " and the text of the cause. *)
Theorem failed_completion_notice self update w e :
  let inbound := {| msg_role := user; content := message_text update |} in
  let h := user_conversations_get (effective_user_id update) w ++ [inbound] in
  delivers env →
  completion_result
    (create env (api_calls w) (completion_request (limited self h)))
  = Raise e →
  ∃ notice,
    (handle_message env self update w).1 = Ok ()
    ∧ outbox (after (handle_message env self update) w)
      = outbox w
        ++ [ChatAction (effective_chat_id update) (lit "typing");
            ReplyText (effective_chat_id update) notice None]
    ∧ notice
      = [10060%N]
        ++ lit " I'm sorry, I encountered an error while processing your message. "
        ++ lit "Please try again in a moment." ++ nl ++ nl
        ++ lit "Error details: "
        ++ lit "Failed to generate AI response: " ++ py_str e.
Proof.
  intros inbound h Hd Hfail. eexists. unfold after.
  rewrite handle_message_run, Hd. fold inbound h. rewrite Hfail.
  rewrite reply_text_delivered by done. cbn [fst snd outbox push_events push_call
    set_conversations].
  split; [done |]. split; [by rewrite <- app_assoc |].
  reflexivity.
Qed.

(** X8: when Telegram accepts every send and the completion call gives a
    reply, the handler returns without an error, and what it has sent is the
    typing indicator and then the chunks of the reply, which glued together
    are the reply. *)
Theorem answered_message_delivery update w response :
  let inbound := {| msg_role := user; content := message_text update |} in
  let h := user_conversations_get (effective_user_id update) w ++ [inbound] in
  delivers env →
  completion_result
    (create env (api_calls w) (completion_request (limited init h)))
  = Ok response →
  ∃ cs,
    chunks response 4096 = Ok cs
    ∧ concat cs = response
    ∧ (handle_message env init update w).1 = Ok ()
    ∧ outbox (after (handle_message env init update) w)
      = outbox w
        ++ ChatAction (effective_chat_id update) (lit "typing")
           :: map (λ c, ReplyText (effective_chat_id update) c None) cs.
Proof.
  intros inbound h Hd Hanswer.
  assert (∃ cs, chunks response 4096 = Ok cs) as [cs Hcs].
  { unfold chunks. destruct (_ <=? _); [by eexists |].
    unfold range. simpl. by eexists. }
  exists cs. split; [done |].
  split; [by apply (chunks_concat response 4096) |].
  unfold after. rewrite handle_message_run, Hd. fold inbound h.
  rewrite Hanswer. unfold try_except.
  rewrite send_long_message_for_each, Hcs.
  rewrite for_each_reply_delivered by done. simpl.
  split; [done |]. by rewrite <- app_assoc.
Qed.

(** X5: a reply that Telegram refuses is remembered all the same: when the
    completion call gave a reply of at most 4096 characters and its send is
    refused, the reply is the last entry of the history of the sender, and
    what went out after the typing indicator is at most the notice with the
    error of Telegram. *)
Theorem refused_reply_is_remembered update w response cause :
  let user_id := effective_user_id update in
  let chat_id := effective_chat_id update in
  let inbound := {| msg_role := user; content := message_text update |} in
  let h := user_conversations_get user_id w ++ [inbound] in
  let typing := ChatAction chat_id (lit "typing") in
  let notice := ReplyText chat_id (error_message (TelegramError cause)) None in
  deliver env (outbox w) typing = None →
  completion_result
    (create env (api_calls w) (completion_request (limited init h)))
  = Ok response →
  len response <= 4096 →
  deliver env (outbox w ++ [typing]) (ReplyText chat_id response None)
  = Some cause →
  let w' := after (handle_message env init update) w in
  last (user_conversations_get user_id w')
  = Some {| msg_role := assistant; content := response |}
  ∧ outbox w'
    = outbox w ++ typing
      :: match deliver env (outbox w ++ [typing]) notice with
         | None => [notice]
         | Some _ => []
         end.
Proof.
  intros user_id chat_id inbound h typing notice Htyping Hanswer Hshort Hrefused w'.
  split.
  - destruct (handle_message_after env init update w) as [_ Hafter].
    pose proof Htyping as Ht. pose proof Hanswer as Ha.
    unfold typing, chat_id in Ht. unfold h, inbound, user_id in Ha.
    rewrite Ht, Ha in Hafter. destruct Hafter as [_ Hc].
    subst w'. unfold user_conversations_get. rewrite Hc.
    unfold user_id. rewrite lookup_insert_eq. apply last_snoc.
  - subst w'. unfold after.
    rewrite handle_message_run. fold user_id chat_id typing inbound h.
    rewrite Htyping, Hanswer. unfold try_except, send_long_message.
    destruct (Z.leb_spec (len response) 4096) as [_ | ?]; [| lia].
    unfold reply_text, send. simpl.
    fold chat_id. rewrite Hrefused. simpl. fold notice.
    destruct (deliver env (outbox w ++ [typing]) notice);
      cbn [snd outbox push_events push_call set_conversations].
    + done.
    + by rewrite <- app_assoc.
Qed.

End MoreMessages.

(** ** The commands and the application *)

Section Commands.

Import Bot.

Context (env : Env).

Lemma start_command_run update w :
  start_command env update w
  = match deliver env (outbox w)
            (ReplyText (effective_chat_id update)
               (welcome_message (effective_user_first_name update)) None) with
    | Some cause => (Raise (TelegramError cause), w)
    | None =>
        (Ok (),
         set_conversations
           (<[effective_user_id update :=
                user_conversations_get (effective_user_id update) w]>
              (user_conversations w))
           (push_events
              [ReplyText (effective_chat_id update)
                 (welcome_message (effective_user_first_name update)) None] w))
    end.
Proof.
  unfold start_command. rewrite bind_run. unfold reply_text, send.
  destruct (deliver env _ _); [done |].
  by rewrite ensure_conversation_run.
Qed.

(** X11: [/start] never resets a conversation: the history read for every
    user is as before. When the welcome message goes out, the sender has an
    entry afterwards; when Telegram refuses it, the conversations are as
    they were, so that a new sender has no entry. *)
Theorem start_command_keeps_history update w :
  let user_id := effective_user_id update in
  let welcome := ReplyText (effective_chat_id update)
                   (welcome_message (effective_user_first_name update)) None in
  let w' := after (start_command env update) w in
  (∀ u, user_conversations_get u w' = user_conversations_get u w)
  ∧ (deliver env (outbox w) welcome = None →
     user_id ∈ dom (user_conversations w')
     ∧ outbox w' = outbox w ++ [welcome])
  ∧ (∀ cause, deliver env (outbox w) welcome = Some cause →
       (start_command env update w).1 = Raise (TelegramError cause) ∧ w' = w).
Proof.
  intros user_id welcome w'. subst w'. unfold after.
  rewrite start_command_run. fold user_id welcome.
  destruct (deliver env (outbox w) welcome) as [cause |]; simpl.
  - split; [done |]. split; [done |]. by intros ? [= <-].
  - split; [| split; [| done]].
    + intros u. unfold user_conversations_get. simpl.
      destruct (decide (user_id = u)) as [<- | Hne].
      * by rewrite lookup_insert_eq.
      * by rewrite lookup_insert_ne.
    + intros _. split; [| done]. apply elem_of_dom.
      by rewrite lookup_insert_eq.
Qed.

(** X12: [/clear] neither creates nor removes an entry and leaves the other
    users alone, and its answer tells whether the sender had an entry, not
    whether anything was stored: with an entry, even an empty one, the
    answer is "Conversation history cleared!", without one it is "No
    conversation history to clear.". *)
Theorem clear_command_reply update w :
  let user_id := effective_user_id update in
  let w' := after (clear_command env update) w in
  dom (user_conversations w') = dom (user_conversations w)
  ∧ (∀ u, u ≠ user_id →
       user_conversations w' !! u = user_conversations w !! u)
  ∧ (delivers env →
     outbox w'
     = outbox w
       ++ [ReplyText (effective_chat_id update)
             (if decide (user_id ∈ dom (user_conversations w))
              then [9989%N] ++ lit " Conversation history cleared!"
              else [128221%N] ++ lit " No conversation history to clear.")
             None]).
Proof.
  intros user_id w'. subst w'. split; [| split].
  - rewrite clear_command_conversations. fold user_id.
    destruct (decide _) as [Hin | _]; [| done].
    rewrite dom_insert_L. by apply subseteq_union_1_L, singleton_subseteq_l.
  - intros u Hu. rewrite clear_command_conversations. fold user_id.
    destruct (decide _); [by rewrite lookup_insert_ne | done].
  - intros Hd. unfold after, clear_command. rewrite bind_run.
    cbn [get fst snd]. fold user_id.
    destruct (decide _).
    + rewrite bind_run. unfold set_conversation, modify.
      by rewrite reply_text_delivered.
    + by rewrite reply_text_delivered.
Qed.

Lemma status_command_only_sends update now_text w :
  only_sends w (after (status_command env update now_text) w).
Proof.
  unfold after, status_command. rewrite bind_run.
  apply (reply_text_only_sends env).
Qed.

(** X13: [/status] tells the number of entries stored for the sender, 0 for
    a sender without an entry, in one Markdown message, and changes neither
    the conversations (it creates no entry) nor anything else but what was
    sent. *)
Theorem status_command_reports update now_text w :
  let user_id := effective_user_id update in
  let w' := after (status_command env update now_text) w in
  only_sends w w'
  ∧ (user_conversations w !! user_id = None → conversation_length user_id w = 0)
  ∧ (delivers env →
     ∃ before after_,
       outbox w'
       = outbox w
         ++ [ReplyText (effective_chat_id update)
               (before ++ lit " Messages in conversation: "
                ++ repr_int (conversation_length user_id w) ++ nl ++ after_)
               (Some (lit "Markdown"))]).
Proof.
  intros user_id w'. split; [apply status_command_only_sends |].
  split.
  - intros Hnone. unfold conversation_length. by rewrite Hnone.
  - intros Hd. subst w'. unfold after, status_command. rewrite bind_run.
    cbn [get fst snd]. rewrite reply_text_delivered by done.
    cbn [snd outbox push_events]. fold user_id.
    exists ([129302%N] ++ lit " *Bot Status*" ++ nl ++ nl
            ++ [9989%N] ++ lit " Bot is online and operational" ++ nl
            ++ [128172%N]),
           ([129504%N] ++ lit " Model: GPT-4o via OpenRouter" ++ nl
            ++ [9200%N] ++ lit " Current time: " ++ now_text ++ nl).
    by rewrite <- !app_assoc.
Qed.

Lemma help_command_only_sends update w :
  only_sends w (after (help_command env update) w).
Proof. apply (reply_text_only_sends env). Qed.

Lemma error_handler_run update w :
  (error_handler env update w).1 = Ok ()
  ∧ only_sends w (error_handler env update w).2.
Proof.
  destruct update as [update |]; [| by split; [| apply only_sends_refl]].
  unfold error_handler, try_except.
  pose proof (reply_text_only_sends env update
    ([10060%N] ++ lit " An unexpected error occurred. Please try again later.")
    None w) as Hsend.
  by destruct (reply_text _ _ _ _ _) as [[[] | e] w'].
Qed.

Lemma process_update_run self h update w :
  (process_update env self h update w).1 = Ok ()
  ∧ only_sends (after (run_handler env self h update) w)
               (after (process_update env self h update) w).
Proof.
  unfold process_update, try_except, after.
  destruct (run_handler env self h update w) as [[[] | e] w1]; simpl.
  - split; [done | apply only_sends_refl].
  - exact (error_handler_run (Some update) w1).
Qed.

(** What a handler does to the statistics and to the requests: the commands
    leave both alone, a text message adds at most one request. *)
Lemma run_handler_frame self h update w :
  let w' := after (run_handler env self h update) w in
  bot_stats w' = bot_stats w
  ∧ (h ≠ TextMessage → api_calls w' = api_calls w)
  ∧ (length (api_calls w') ≤ S (length (api_calls w)))%nat.
Proof.
  intros w'. subst w'. destruct h as [| | | now_text |]; simpl.
  - unfold after. rewrite start_command_run.
    destruct (deliver env _ _); simpl; repeat split; lia.
  - destruct (help_command_only_sends update w) as (_ & -> & ->).
    repeat split; lia.
  - assert (bot_stats (after (clear_command env update) w) = bot_stats w
            ∧ api_calls (after (clear_command env update) w) = api_calls w)
      as [-> ->]; [| repeat split; lia].
    unfold after, clear_command. rewrite bind_run. cbn [get fst snd].
    destruct (decide _).
    + rewrite bind_run. unfold set_conversation, modify.
      destruct (reply_text_only_sends env update
                  ([9989%N] ++ lit " Conversation history cleared!") None
                  (set_conversations
                     (<[effective_user_id update := []]> (user_conversations w))
                     w)) as (_ & Hs & Ha).
      by split.
    + destruct (reply_text_only_sends env update
                  ([128221%N] ++ lit " No conversation history to clear.")
                  None w) as (_ & Hs & Ha).
      by split.
  - destruct (status_command_only_sends update now_text w) as (_ & -> & ->).
    repeat split; lia.
  - destruct (handle_message_after env self update w) as [-> Hafter].
    split; [done |]. split; [done |].
    destruct (deliver env _ _); destruct Hafter as [-> _];
      [| rewrite length_app; simpl]; lia.
Qed.

Lemma run_handler_length_bound h update u w :
  conversation_length u w <= 21 →
  conversation_length u (after (run_handler env init h update) w) <= 21.
Proof.
  intros Hw. destruct h as [| | | now_text |]; simpl.
  - unfold after. rewrite start_command_run.
    destruct (deliver env _ _); [done |]. simpl.
    rewrite (conversation_length_insert (effective_user_id update) u
               (user_conversations_get (effective_user_id update) w) w)
      by done.
    destruct (decide _) as [<- |]; done.
  - destruct (help_command_only_sends update w) as (Hc & _).
    unfold conversation_length. by rewrite Hc.
  - unfold conversation_length. rewrite clear_command_conversations.
    destruct (decide (_ ∈ _)); [| done].
    destruct (decide (effective_user_id update = u)) as [<- | Hne].
    + rewrite lookup_insert_eq. simpl. unfold len. simpl. lia.
    + by rewrite lookup_insert_ne.
  - destruct (status_command_only_sends update now_text w) as (Hc & _).
    unfold conversation_length. by rewrite Hc.
  - by apply handle_message_length_bound.
Qed.

(** For an update that carries a message, whatever a handler raises ends in
    [error_handler], which sends the user one apology when Telegram accepts
    it and swallows the error of the send when it does not. *)
Lemma process_update_apology self h update w :
  let w1 := after (run_handler env self h update) w in
  let w' := after (process_update env self h update) w in
  let apology :=
    ReplyText (effective_chat_id update)
      ([10060%N] ++ lit " An unexpected error occurred. Please try again later.")
      None in
  (process_update env self h update w).1 = Ok ()
  ∧ only_sends w1 w'
  ∧ ((run_handler env self h update w).1 = Ok () → w' = w1)
  ∧ (∀ e, (run_handler env self h update w).1 = Raise e →
       outbox w' = outbox w1 ++ match deliver env (outbox w1) apology with
                                | None => [apology]
                                | Some _ => []
                                end).
Proof.
  intros w1 w' apology.
  destruct (process_update_run self h update w) as [Hok Hsends].
  split; [done |]. split; [done |]. subst w1 w'.
  unfold after, process_update, try_except.
  destruct (run_handler env self h update w) as [[[] | e] w1]; cbn [fst snd].
  - split; [done | by intros e [=]].
  - split; [done |]. intros _ _.
    unfold error_handler, try_except, reply_text, send. fold apology.
    destruct (deliver env (outbox w1) apology); cbn [snd outbox push_events];
      [by rewrite app_nil_r | done].
Qed.

(** No sequence of commands and messages changes [bot_stats]; it calls the
    client at most once per update, and not at all when every update is a
    command. *)
Lemma process_updates_frame self updates w :
  let w' := process_updates env self updates w in
  bot_stats w' = bot_stats w
  ∧ (length (api_calls w') ≤ length (api_calls w) + length updates)%nat
  ∧ (Forall (λ hu : handler * Update, hu.1 ≠ TextMessage) updates →
     api_calls w' = api_calls w).
Proof.
  intros w'. subst w'. revert w.
  induction updates as [| [h update] updates IH]; intros w.
  - simpl. repeat split. lia.
  - simpl.
    destruct (process_update_run self h update w) as [_ (_ & Hs & Ha)].
    destruct (run_handler_frame self h update w) as (Hs1 & Hcommand & Hone).
    destruct (IH (after (process_update env self h update) w))
      as (IHs & IHcalls & IHcommands).
    split; [by rewrite IHs, Hs, Hs1 |]. split.
    + rewrite Ha in IHcalls. lia.
    + intros Hall. apply Forall_cons in Hall as [Hh Hall].
      rewrite (IHcommands Hall), Ha. by apply Hcommand.
Qed.

(** X2: from the start of the process on, whatever is sent to the bot and
    whatever the API and Telegram do, no history ever holds more than 21
    entries. *)
Theorem history_bounded_under_all_updates start updates u :
  conversation_length u
    (process_updates env init updates (initial_world start)) <= 21.
Proof.
  assert (∀ w, conversation_length u w <= 21 →
               conversation_length u (process_updates env init updates w) <= 21)
    as Hall.
  { induction updates as [| [h update] updates IH]; intros w Hw; [done |].
    simpl. apply IH.
    destruct (process_update_run init h update w) as [_ (Hc & _)].
    unfold conversation_length. rewrite Hc.
    by apply (run_handler_length_bound h update u w). }
  apply Hall. unfold conversation_length. simpl.
  rewrite lookup_empty. simpl. unfold len. simpl. lia.
Qed.

End Commands.

(** ** The reply of the completion call *)

Section Reply.

Import Bot.

Context (env : Env).

(** X15: the reply taken from the first choice neither starts nor ends with
    white space, a content of white space only gives the empty reply, and
    the choices after the first are not looked at. *)
Theorem reply_is_trimmed user_id h w text rest :
  user_conversations w !! user_id = Some h →
  create env (api_calls w) (completion_request h)
  = ApiResponse (Some text :: rest) →
  ∃ reply,
    (generate_chatgpt_response env user_id w).1 = Ok reply
    ∧ (∀ c tail, reply = c :: tail → isspace c = false)
    ∧ (∀ c front, reply = front ++ [c] → isspace c = false)
    ∧ (Forall (λ c, isspace c = true) text → reply = []).
Proof.
  intros Hh Hanswer. exists (strip text).
  rewrite (generate_chatgpt_response_run env user_id h w Hh), Hanswer.
  destruct (strip_spec text) as (l & r & Htext & _ & _ & Hhead & Hlast).
  split; [done |]. split; [exact Hhead |]. split; [exact Hlast |].
  intros Hspace. destruct (strip text) as [| c tail] eqn:Hstrip; [done |].
  assert (isspace c = true) as Hc.
  { rewrite Forall_forall in Hspace. apply Hspace. rewrite Htext.
    apply elem_of_app. right. apply list_elem_of_here. }
  by rewrite (Hhead c tail eq_refl) in Hc.
Qed.

End Reply.

(** ** The statistics over the calls, and the routes that read them *)

Section Statistics.

Import WebServer.

(** A call either leaves the three counters alone or counts one message. *)
Lemma apply_call_cases c s :
  let s' := apply_call c s in
  start_time s' = start_time s
  ∧ ((response_count s' = response_count s
      ∧ active_users s' = active_users s
      ∧ last_message_time s' = last_message_time s)
     ∨ ∃ key now,
         response_count s' = response_count s + 1
         ∧ active_users s' = {[key]} ∪ active_users s
         ∧ last_message_time s' = Some now).
Proof.
  destruct c as [request_json now | st ap rt uid now]; simpl.
  - destruct (webhook_cases request_json now s)
      as [[key ->] | [-> | [e ->]]]; simpl.
    + split; [done |]. right. by exists key, now.
    + split; [done |]. by left.
    + split; [done |]. by left.
  - unfold update_bot_stats. split; [stats_cases; reflexivity |].
    destruct uid as [u |]; [destruct (negb (u =? 0)) |].
    + right. exists (KInt u), now. stats_cases; by repeat split.
    + left. stats_cases; by repeat split.
    + left. stats_cases; by repeat split.
Qed.

Lemma size_add_le (key : pykey) (users : gset pykey) :
  (size ({[key]} ∪ users) ≤ S (size users))%nat.
Proof.
  rewrite size_union_alt, size_singleton.
  pose proof (subseteq_size (users ∖ {[key]}) users) as Hle.
  assert (users ∖ {[key]} ⊆ users) as Hsub by apply subseteq_difference_l, reflexivity.
  specialize (Hle Hsub). lia.
Qed.

(** What the calls keep of the counters. *)
Lemma run_calls_invariant calls s :
  0 <= Z.of_nat (size (active_users s)) <= response_count s →
  (response_count s = 0 ↔ last_message_time s = None) →
  let s' := run_calls calls s in
  Z.of_nat (size (active_users s')) <= response_count s'
  ∧ response_count s <= response_count s'
                     <= response_count s + Z.of_nat (length calls)
  ∧ (response_count s' = 0 ↔ last_message_time s' = None)
  ∧ start_time s' = start_time s.
Proof.
  revert s. induction calls as [| c calls IH]; intros s Hsize Hlast.
  - simpl. repeat split; try lia; apply Hlast.
  - simpl.
    destruct (apply_call_cases c s)
      as [Hstart [(Hc & Ha & Hl) | (key & now & Hc & Ha & Hl)]].
    + destruct (IH (apply_call c s)) as (IH1 & IH2 & IH3 & IH4).
      * rewrite Hc, Ha. lia.
      * by rewrite Hc, Hl.
      * rewrite Hc in IH2. rewrite IH4, Hstart. repeat split; try lia;
          apply IH3.
    + pose proof (size_add_le key (active_users s)) as Hadd.
      destruct (IH (apply_call c s)) as (IH1 & IH2 & IH3 & IH4).
      * rewrite Hc, Ha. lia.
      * rewrite Hc, Hl. split; [lia | done].
      * rewrite Hc in IH2. rewrite IH4, Hstart. repeat split; try lia;
          apply IH3.
Qed.

(** X18: from the start of the server on, over every sequence of webhook
    requests and calls of [update_bot_stats] run one after the other, the
    number of active users is at most the count of responses, the count is
    at most the number of calls, the time of the last message is missing
    exactly while the count is 0, and the start time is never changed. *)
Theorem stats_invariant start calls :
  let s := run_calls calls (initial_stats start) in
  0 <= Z.of_nat (size (active_users s)) <= response_count s
  ∧ response_count s <= Z.of_nat (length calls)
  ∧ (response_count s = 0 ↔ last_message_time s = None)
  ∧ start_time s = start.
Proof.
  destruct (run_calls_invariant calls (initial_stats start))
    as (Hsize & Hcount & Hlast & Hstart).
  - cbn [active_users response_count initial_stats]. rewrite size_empty. lia.
  - done.
  - cbn [response_count start_time initial_stats] in Hcount, Hstart.
    intros s. subst s. split; [lia |]. split; [lia |]. by split.
Qed.

(** X19: what [/api/status] shows after any such sequence of calls: the
    number of active users is at most the total of responses, the last
    message is "None" while the total is 0 and a formatted time after that,
    and the start time shown is that of the start of the server. *)
Theorem api_status_route_consistent fmt now start calls :
  ∃ d (n m : Z),
    api_status_route fmt now (run_calls calls (initial_stats start)) = JDict d
    ∧ dict_get (lit "active_users") d = Some (JInt n)
    ∧ dict_get (lit "total_responses") d = Some (JInt m)
    ∧ 0 <= n <= m
    ∧ (m = 0 → dict_get (lit "last_message") d = Some (JStr (lit "None")))
    ∧ (0 < m → ∃ t, dict_get (lit "last_message") d
                    = Some (JStr (strftime fmt t (lit "%H:%M:%S"))))
    ∧ dict_get (lit "start_time") d
      = Some (JStr (strftime fmt start (lit "%Y-%m-%d %H:%M:%S"))).
Proof.
  destruct (run_calls_invariant calls (initial_stats start))
    as (Hsize & Hcount & Hlast & Hstart);
    [cbn [active_users response_count initial_stats]; rewrite size_empty; lia
    | done |].
  cbn [response_count start_time initial_stats] in Hcount, Hstart.
  set (s := run_calls calls (initial_stats start)) in *.
  eexists _, (Z.of_nat (size (active_users s))), (response_count s).
  split; [reflexivity |]. split; [reflexivity |]. split; [reflexivity |].
  split; [lia |]. split; [| split].
  - intros Hzero. apply Hlast in Hzero.
    change (dict_get (lit "last_message") _)
      with (Some (JStr (match last_message_time s with
                        | Some t => strftime fmt t (lit "%H:%M:%S")
                        | None => lit "None"
                        end))).
    by rewrite Hzero.
  - intros Hpos.
    change (dict_get (lit "last_message") _)
      with (Some (JStr (match last_message_time s with
                        | Some t => strftime fmt t (lit "%H:%M:%S")
                        | None => lit "None"
                        end))).
    destruct (last_message_time s) as [t |]; [by exists t |].
    assert (response_count s = 0) by by apply Hlast. lia.
  - change (dict_get (lit "start_time") _)
      with (Some (JStr (strftime fmt (start_time s)
                          (lit "%Y-%m-%d %H:%M:%S")))).
    by rewrite Hstart.
Qed.

Lemma webhook_counts d message sender user_id key now s :
  dict_get (lit "message") d = Some message →
  subscript message (lit "from") = Ok sender →
  subscript sender (lit "id") = Ok user_id →
  hash_key user_id = Ok key →
  webhook (Ok (JDict d)) now s
  = (Ok (StatusBody (lit "ok"), 200), counted key now s).
Proof.
  intros Hd Hfrom Hid Hkey.
  unfold webhook, try_except, mbind, prog_bind, lift, modify, mret, prog_ret.
  assert (truthy (JDict d) = true) as -> by by destruct d.
  assert (contains (lit "message") (JDict d) = Ok true) as ->.
  { simpl. apply dict_get_Some in Hd. by rewrite bool_decide_eq_true_2. }
  assert (subscript (JDict d) (lit "message") = Ok message) as ->
    by (simpl; by rewrite Hd).
  by rewrite Hfrom, Hid, Hkey.
Qed.

(** X20: the active users are the distinct senders: after any number of
    webhook requests with the same readable sender, and nothing else, there
    is one active user, the count of responses is the number of requests,
    and the time of the last message is that of the last request. *)
Theorem webhook_same_sender d message sender user_id key times start :
  dict_get (lit "message") d = Some message →
  subscript message (lit "from") = Ok sender →
  subscript sender (lit "id") = Ok user_id →
  hash_key user_id = Ok key →
  times ≠ [] →
  let s := run_calls (map (λ t, Webhook (Ok (JDict d)) t) times)
                     (initial_stats start) in
  active_users s = {[key]}
  ∧ response_count s = len times
  ∧ last_message_time s = last times.
Proof.
  intros Hd Hfrom Hid Hkey Htimes.
  assert (∀ s0,
    let s := run_calls (map (λ t, Webhook (Ok (JDict d)) t) times) s0 in
    active_users s = (match times with
                      | [] => active_users s0
                      | _ => {[key]} ∪ active_users s0
                      end)
    ∧ response_count s = response_count s0 + len times
    ∧ last_message_time s = (match last times with
                             | Some t => Some t
                             | None => last_message_time s0
                             end)) as Hall.
  { clear Htimes. induction times as [| t ts IH]; intros s0.
    { repeat split. unfold len. simpl. lia. }
    cbn [map run_calls foldl apply_call].
    rewrite (webhook_counts d message sender user_id key t s0) by done.
    cbn [snd]. fold (run_calls (map (λ t, Webhook (Ok (JDict d)) t) ts)
                               (counted key t s0)).
    destruct (IH (counted key t s0)) as (Ha & Hc & Hl).
    cbv zeta. rewrite Ha, Hc, Hl.
    cbn [counted active_users response_count last_message_time
         set_response_count set_last_message_time set_active_users].
    split; [| split].
    - destruct ts; [done |].
      apply set_eq. intros x. rewrite !elem_of_union. tauto.
    - change (t :: ts) with ([t] ++ ts). rewrite len_app.
      change (len [t]) with 1. lia.
    - destruct ts as [| t' ts']; [done |]. rewrite last_cons_cons.
      destruct (last (t' :: ts')) eqn:Hlast; [done |].
      by apply last_None in Hlast. }
  destruct (Hall (initial_stats start)) as (Ha & Hc & Hl).
  intros s. subst s. rewrite Ha, Hc, Hl.
  destruct times as [| t ts]; [done |].
  cbn [active_users response_count initial_stats].
  split; [apply right_id_L, _ | split; [lia |]].
  destruct (last (t :: ts)) eqn:Hlast; [done |].
  by apply last_None in Hlast.
Qed.

(** X21: a body that is no object is taken for one as soon as the test
    ['message' in update_data] passes or fails to run: a list that holds the
    string "message" and a string that contains it are answered 500, and so
    are a number that is not 0 and [true]; a list that does not hold the
    string is answered "no_message". [bot_stats] stays as it was. *)
Theorem webhook_non_object_body now s :
  (∀ l, JStr (lit "message") ∈ l →
        webhook (Ok (JList l)) now s = (Ok (ErrorBody BadIndex, 500), s))
  ∧ (∀ l, JStr (lit "message") ∉ l →
          webhook (Ok (JList l)) now s
          = (Ok (StatusBody (lit "no_message"), 200), s))
  ∧ (∀ text, substring_of (lit "message") text = true →
             webhook (Ok (JStr text)) now s
             = (Ok (ErrorBody BadIndex, 500), s))
  ∧ (∀ z, z ≠ 0 →
          webhook (Ok (JInt z)) now s = (Ok (ErrorBody NotIterable, 500), s))
  ∧ webhook (Ok (JBool true)) now s = (Ok (ErrorBody NotIterable, 500), s).
Proof.
  assert (∀ l, existsb (λ x, match x with
                             | JStr t => bool_decide (t = lit "message")
                             | _ => false
                             end) l = true
               ↔ JStr (lit "message") ∈ l) as Hexists.
  { intros l. rewrite existsb_exists. split.
    - intros (x & Hx & Hmatch). apply list_elem_of_In in Hx.
      destruct x as [| | | t | |]; try done.
      apply bool_decide_eq_true_1 in Hmatch. by subst t.
    - intros Hin. exists (JStr (lit "message")).
      split; [by apply list_elem_of_In | by apply bool_decide_eq_true_2]. }
  unfold webhook, try_except, mbind, prog_bind, lift, modify, mret, prog_ret.
  split; [| split; [| split; [| split]]].
  - intros l Hin. apply Hexists in Hin as Hcontains.
    destruct l as [| x l]; [by apply not_elem_of_nil in Hin |].
    cbn [truthy contains]. by rewrite Hcontains.
  - intros l Hout. destruct l as [| x l]; [done |].
    cbn [truthy contains].
    destruct (existsb _ (x :: l)) eqn:Hcontains; [| done].
    by apply Hexists in Hcontains.
  - intros text Hsub. cbn [truthy contains].
    destruct text as [| c text]; [done |].
    rewrite bool_decide_eq_false_2 by done. cbn [negb]. by rewrite Hsub.
  - intros z Hz. cbn [truthy].
    destruct (Z.eqb_spec z 0) as [? | _]; done.
  - done.
Qed.

(** X22: the status shown is the last status text given to
    [update_bot_stats] that was not empty, compared as it stands with
    "online": after such a call [/api/status] shows "Online" for "online" and
    "Offline" for every other text, [/health] shows [bot_running]
    accordingly and "healthy" in either case, and no webhook request changes
    the status. *)
Theorem status_flag_shown fmt now v api_status response_time user_id t s :
  v ≠ [] →
  let s' := update_bot_stats (Some v) api_status response_time user_id t s in
  (∃ d, api_status_route fmt now s' = JDict d
        ∧ dict_get (lit "bot_status") d
          = Some (JStr (if bool_decide (v = lit "online")
                        then lit "Online" else lit "Offline")))
  ∧ health_check fmt now s'
    = JDict [(lit "status", JStr (lit "healthy"));
             (lit "timestamp", JStr (isoformat fmt now));
             (lit "bot_running", JBool (bool_decide (v = lit "online")))]
  ∧ ∀ request_json now', WebServer.status (webhook request_json now' s').2 = v.
Proof.
  intros Hv s'.
  assert (WebServer.status s' = v) as Hstatus.
  { subst s'. unfold update_bot_stats.
    rewrite bool_decide_eq_false_2 by done. cbn [negb].
    stats_cases; reflexivity. }
  split; [| split].
  - eexists. split; [reflexivity |].
    change (dict_get (lit "bot_status") _)
      with (Some (JStr (if bool_decide (WebServer.status s' = lit "online")
                        then lit "Online" else lit "Offline"))).
    by rewrite Hstatus.
  - unfold health_check. by rewrite Hstatus.
  - intros request_json now'.
    destruct (webhook_cases request_json now' s') as [[key ->] | [-> | [e ->]]];
      exact Hstatus.
Qed.

(** X23: the four arguments of [update_bot_stats] act on their own: one call
    does what four calls with one argument each do, in the order of the
    source or in the opposite order. *)
Theorem update_bot_stats_splits status api_status response_time user_id now s :
  update_bot_stats status api_status response_time user_id now s
  = update_bot_stats None None None user_id now
      (update_bot_stats None None response_time None now
         (update_bot_stats None api_status None None now
            (update_bot_stats status None None None now s)))
  ∧ update_bot_stats status api_status response_time user_id now s
    = update_bot_stats status None None None now
        (update_bot_stats None api_status None None now
           (update_bot_stats None None response_time None now
              (update_bot_stats None None None user_id now s))).
Proof. unfold update_bot_stats. split; stats_cases; reflexivity. Qed.

End Statistics.

(** ** Two webhook requests at once: the active users *)

Section TwoSenders.

Import WebServer Interleaving.

Ltac same_users :=
  apply set_eq; intros ?;
  rewrite ?elem_of_union, ?elem_of_singleton, ?elem_of_empty; tauto.

Lemma users_invariant_step old key1 now1 key2 now2 c who :
  users_invariant old key1 now1 key2 now2 c →
  users_invariant old key1 now1 key2 now2 (sched_step c who).
Proof.
  destruct c as [s [code1 l1] [code2 l2]].
  intros (n1 & n2 & [Hn1 H1] & [Hn2 H2] & Husers & Htime).
  simpl in H1, H2, Husers, Htime. destruct who.
  - destruct n2 as [| [| [| [| [| n2]]]]]; [| | | | | lia];
      simpl in H2; subst code2; unfold sched_step, step; simpl;
      [exists n1, 1%nat | exists n1, 2%nat | exists n1, 3%nat
      | exists n1, 4%nat | exists n1, 4%nat];
      (split; [by split |]); (split; [split; [lia | done] |]); simpl;
      (split; [rewrite ?Husers; repeat case_decide; try lia; same_users |]);
      intros Hsteps; try (by right); apply Htime; lia.
  - destruct n1 as [| [| [| [| [| n1]]]]]; [| | | | | lia];
      simpl in H1; subst code1; unfold sched_step, step; simpl;
      [exists 1%nat, n2 | exists 2%nat, n2 | exists 3%nat, n2
      | exists 4%nat, n2 | exists 4%nat, n2];
      (split; [split; [lia | done] |]); (split; [by split |]); simpl;
      (split; [rewrite ?Husers; repeat case_decide; try lia; same_users |]);
      intros Hsteps; try (by left); apply Htime; lia.
Qed.

Lemma users_invariant_run old key1 now1 key2 now2 sched c :
  users_invariant old key1 now1 key2 now2 c →
  users_invariant old key1 now1 key2 now2 (run sched c).
Proof.
  revert c. induction sched as [| who sched IH]; intros c Hc; [done |].
  apply IH. by apply users_invariant_step.
Qed.

(** X24: on every schedule that lets two webhook handlers finish, both
    senders are among the active users and nobody else has joined them, and
    the time of the last message is that of one of the two requests: of the
    three updates only the count can lose one. *)
Theorem webhook_updates_keep_users s key1 now1 key2 now2 sched :
  let c := mkConfig s (webhook_thread key1 now1) (webhook_thread key2 now2) in
  finished (run sched c) →
  active_users (stats (run sched c)) = {[key1]} ∪ ({[key2]} ∪ active_users s)
  ∧ (last_message_time (stats (run sched c)) = Some now1
     ∨ last_message_time (stats (run sched c)) = Some now2).
Proof.
  intros c [Hfirst Hsecond].
  assert (users_invariant (active_users s) key1 now1 key2 now2 c) as Hstart.
  { exists 0%nat, 0%nat.
    split; [split; [lia | done] |]. split; [split; [lia | done] |].
    split; [simpl; same_users | intros [? | ?]; lia]. }
  apply (users_invariant_run _ _ _ _ _ sched) in Hstart.
  destruct Hstart as (n1 & n2 & [Hn1 H1] & [Hn2 H2] & Husers & Htime).
  rewrite Hfirst in H1. rewrite Hsecond in H2.
  assert (n1 = 4%nat) as ->
    by (destruct n1 as [| [| [| [| [| n1]]]]]; try discriminate; lia).
  assert (n2 = 4%nat) as ->
    by (destruct n2 as [| [| [| [| [| n2]]]]]; try discriminate; lia).
  split; [| apply Htime; lia].
  rewrite Husers. repeat case_decide; try lia. same_users.
Qed.

End TwoSenders.

(** ** The further properties on concrete runs *)

Lemma handle_message_other_users_witness :
  Bot.user_conversations
    (Bot.after (Bot.handle_message (Scenario.answering (lit " hi ")) Bot.init
                  Scenario.other) (Scenario.answered 1)) !! 7
  = Bot.user_conversations (Scenario.answered 1) !! 7.
Proof.
  apply (handle_message_other_users (Scenario.answering (lit " hi ")) Bot.init
           Scenario.other 7 (Scenario.answered 1)).
  simpl. lia.
Defined.

Lemma answered_cycle_length_witness :
  Bot.conversation_length 7
    (Bot.after (Bot.handle_message (Scenario.answering (lit " hi ")) Bot.init
                  Scenario.hello) (Scenario.answered 10))
  = Z.min (20 + 1) 20 + 1.
Proof.
  exact (proj2 (answered_cycle_length (Scenario.answering (lit " hi "))
                  Scenario.hello (Scenario.answered 10) (lit "hi")
                  eq_refl eq_refl)).
Defined.

Lemma refused_reply_is_remembered_witness :
  let env := Scenario.refusing (lit "hi") (lit "Bad Request") in
  let w' := Bot.after (Bot.handle_message env Bot.init Scenario.hello)
                      (Bot.initial_world 0) in
  last (Bot.user_conversations_get 7 w')
  = Some (Bot.mkMessage Bot.assistant (lit "hi"))
  ∧ Bot.outbox w'
    = [Bot.ChatAction 7 (lit "typing");
       Bot.ReplyText 7
         (Bot.error_message (Bot.TelegramError (lit "Bad Request"))) None].
Proof.
  apply (refused_reply_is_remembered
           (Scenario.refusing (lit "hi") (lit "Bad Request")) Scenario.hello
           (Bot.initial_world 0) (lit "hi") (lit "Bad Request"));
    [reflexivity | reflexivity | by vm_compute | reflexivity].
Defined.

Lemma typing_failure_aborts_witness :
  let env := Scenario.offline (lit "network") in
  let w' := Bot.after (Bot.handle_message env Bot.init Scenario.hello)
                      (Bot.initial_world 0) in
  (Bot.handle_message env Bot.init Scenario.hello (Bot.initial_world 0)).1
  = Raise (Bot.TelegramError (lit "network"))
  ∧ Bot.api_calls w' = []
  ∧ Bot.outbox w' = [].
Proof.
  destruct (typing_failure_aborts (Scenario.offline (lit "network")) Bot.init
              Scenario.hello (Bot.initial_world 0) (lit "network") eq_refl)
    as (Hraise & Hcalls & Hsent & _).
  split; [exact Hraise |]. split; [exact Hcalls | exact Hsent].
Defined.

Lemma failed_completion_notice_witness :
  ∃ notice,
    (Bot.handle_message (Scenario.failing (lit "timeout")) Bot.init
       Scenario.hello (Bot.initial_world 0)).1 = Ok ()
    ∧ Bot.outbox
        (Bot.after (Bot.handle_message (Scenario.failing (lit "timeout"))
                      Bot.init Scenario.hello) (Bot.initial_world 0))
      = [Bot.ChatAction 7 (lit "typing"); Bot.ReplyText 7 notice None].
Proof.
  destruct (failed_completion_notice (Scenario.failing (lit "timeout")) Bot.init
              Scenario.hello (Bot.initial_world 0)
              (Bot.ApiError (lit "timeout"))
              (λ _ _, eq_refl) eq_refl)
    as (notice & Hok & Hsent & _).
  exists notice. split; [exact Hok | exact Hsent].
Defined.

Lemma answered_message_delivery_witness :
  ∃ cs,
    concat cs = lit "hi"
    ∧ Bot.outbox
        (Bot.after (Bot.handle_message (Scenario.answering (lit " hi "))
                      Bot.init Scenario.hello) (Bot.initial_world 0))
      = Bot.ChatAction 7 (lit "typing")
        :: map (λ c, Bot.ReplyText 7 c None) cs.
Proof.
  destruct (answered_message_delivery (Scenario.answering (lit " hi "))
              Scenario.hello (Bot.initial_world 0) (lit "hi")
              (λ _ _, eq_refl) eq_refl)
    as (cs & _ & Hconcat & _ & Hsent).
  exists cs. split; [exact Hconcat | exact Hsent].
Defined.

Lemma send_long_message_bad_length_witness :
  Bot.send_long_message (Scenario.answering []) Scenario.hello (lit "a") 0
    (Bot.initial_world 0)
  = (Raise Bot.ValueError, Bot.initial_world 0)
  ∧ Bot.send_long_message (Scenario.answering []) Scenario.hello (lit "a") (-1)
      (Bot.initial_world 0)
    = (Ok (), Bot.initial_world 0).
Proof.
  destruct (send_long_message_bad_length (Scenario.answering []) Scenario.hello
              (lit "a") (Bot.initial_world 0)) as [Hzero Hnegative].
  - vm_compute. discriminate.
  - split; [exact Hzero |]. apply Hnegative. lia.
Defined.

Lemma send_long_message_sends_prefix_witness :
  let env := Scenario.refusing (lit "ef") (lit "Bad Request") in
  ∃ n : nat,
    (n ≤ 2)%nat
    ∧ Bot.outbox
        (Bot.after (Bot.send_long_message env Scenario.hello (lit "abcdef") 4)
                   (Bot.initial_world 0))
      = map (λ c, Bot.ReplyText 7 c None) (take n [lit "abcd"; lit "ef"])
    ∧ ((Bot.send_long_message env Scenario.hello (lit "abcdef") 4
          (Bot.initial_world 0)).1 = Ok () ↔ n = 2%nat).
Proof.
  exact (send_long_message_sends_prefix
           (Scenario.refusing (lit "ef") (lit "Bad Request")) Scenario.hello
           (lit "abcdef") 4 [lit "abcd"; lit "ef"] (Bot.initial_world 0)
           eq_refl).
Defined.

Lemma start_command_keeps_history_witness :
  Bot.user_conversations_get 7
    (Bot.after (Bot.start_command (Scenario.answering []) Scenario.hello)
               (Scenario.answered 1))
  = Bot.user_conversations_get 7 (Scenario.answered 1)
  ∧ 8 ∈ dom (Bot.user_conversations
               (Bot.after (Bot.start_command (Scenario.answering [])
                             Scenario.other) (Scenario.answered 1)))
  ∧ Bot.after (Bot.start_command (Scenario.offline (lit "network"))
                 Scenario.other) (Scenario.answered 1)
    = Scenario.answered 1.
Proof.
  destruct (start_command_keeps_history (Scenario.answering []) Scenario.hello
              (Scenario.answered 1)) as (Hkept & _ & _).
  destruct (start_command_keeps_history (Scenario.answering []) Scenario.other
              (Scenario.answered 1)) as (_ & Hsent & _).
  destruct (start_command_keeps_history (Scenario.offline (lit "network"))
              Scenario.other (Scenario.answered 1)) as (_ & _ & Hrefused).
  split; [exact (Hkept 7) |].
  split; [exact (proj1 (Hsent eq_refl)) |].
  exact (proj2 (Hrefused (lit "network") eq_refl)).
Defined.

Lemma clear_command_reply_witness :
  let w := Bot.after (Bot.start_command (Scenario.answering []) Scenario.hello)
                     (Bot.initial_world 0) in
  let w' := Bot.after (Bot.clear_command (Scenario.answering []) Scenario.hello)
                      w in
  dom (Bot.user_conversations w') = dom (Bot.user_conversations w)
  ∧ Bot.outbox w'
    = Bot.outbox w
      ++ [Bot.ReplyText 7 ([9989%N] ++ lit " Conversation history cleared!")
            None].
Proof.
  destruct (clear_command_reply (Scenario.answering []) Scenario.hello
              (Bot.after (Bot.start_command (Scenario.answering [])
                            Scenario.hello) (Bot.initial_world 0)))
    as (Hdom & _ & Hreply).
  split; [exact Hdom |]. exact (Hreply (λ _ _, eq_refl)).
Defined.

Lemma status_command_reports_witness :
  ∃ before after_,
    Bot.outbox
      (Bot.after (Bot.status_command (Scenario.answering []) Scenario.hello
                    (lit "2024-01-01 00:00:00")) (Scenario.answered 11))
    = Bot.outbox (Scenario.answered 11)
      ++ [Bot.ReplyText 7
            (before ++ lit " Messages in conversation: " ++ lit "21"
             ++ Bot.nl ++ after_)
            (Some (lit "Markdown"))].
Proof.
  destruct (status_command_reports (Scenario.answering []) Scenario.hello
              (lit "2024-01-01 00:00:00") (Scenario.answered 11))
    as (_ & _ & Hreply).
  exact (Hreply (λ _ _, eq_refl)).
Defined.

Lemma reply_is_trimmed_witness :
  ∃ reply,
    (Bot.generate_chatgpt_response (Scenario.answering (lit " hi ")) 7
       (Scenario.answered 1)).1 = Ok reply
    ∧ (∀ c tail, reply = c :: tail → isspace c = false).
Proof.
  destruct (reply_is_trimmed (Scenario.answering (lit " hi ")) 7
              [Bot.mkMessage Bot.user (lit "hello");
               Bot.mkMessage Bot.assistant (lit "hi")]
              (Scenario.answered 1) (lit " hi ") [] eq_refl eq_refl)
    as (reply & Hreply & Hhead & _).
  exists reply. split; [exact Hreply | exact Hhead].
Defined.

Lemma generate_chatgpt_response_no_history_witness :
  Bot.generate_chatgpt_response (Scenario.answering (lit " hi ")) 7
    (Bot.initial_world 0)
  = (Raise (Bot.Exception (lit "Failed to generate AI response: 7")),
     Bot.initial_world 0).
Proof.
  exact (generate_chatgpt_response_no_history (Scenario.answering (lit " hi "))
           7 (Bot.initial_world 0) eq_refl).
Defined.

Lemma api_status_route_consistent_witness :
  ∃ d (n m : Z),
    WebServer.api_status_route Scenario.plain 30
      (WebServer.run_calls [WebServer.Webhook (Ok Scenario.message_from_42) 10]
         (WebServer.initial_stats 0)) = WebServer.JDict d
    ∧ WebServer.dict_get (lit "total_responses") d = Some (WebServer.JInt m)
    ∧ 0 <= n <= m
    ∧ (0 < m → ∃ t, WebServer.dict_get (lit "last_message") d
                    = Some (WebServer.JStr
                              (WebServer.strftime Scenario.plain t
                                 (lit "%H:%M:%S")))).
Proof.
  destruct (api_status_route_consistent Scenario.plain 30 0
              [WebServer.Webhook (Ok Scenario.message_from_42) 10])
    as (d & n & m & Hroute & _ & Htotal & Hbound & _ & Hlast & _).
  exists d, n, m. split; [exact Hroute |]. split; [exact Htotal |].
  split; [exact Hbound | exact Hlast].
Defined.

Lemma webhook_same_sender_witness :
  let s := WebServer.run_calls
             [WebServer.Webhook (Ok Scenario.message_from_42) 10;
              WebServer.Webhook (Ok Scenario.message_from_42) 20]
             (WebServer.initial_stats 0) in
  WebServer.active_users s = {[WebServer.KInt 42]}
  ∧ WebServer.response_count s = 2
  ∧ WebServer.last_message_time s = Some 20.
Proof.
  apply (webhook_same_sender
           [(lit "message",
             WebServer.JDict
               [(lit "from", WebServer.JDict [(lit "id", WebServer.JInt 42)])])]
           (WebServer.JDict
              [(lit "from", WebServer.JDict [(lit "id", WebServer.JInt 42)])])
           (WebServer.JDict [(lit "id", WebServer.JInt 42)])
           (WebServer.JInt 42) (WebServer.KInt 42) [10; 20] 0);
    reflexivity || discriminate.
Defined.

Lemma webhook_non_object_body_witness :
  let s := WebServer.initial_stats 0 in
  WebServer.webhook (Ok (WebServer.JList [WebServer.JStr (lit "message")])) 10 s
  = (Ok (WebServer.ErrorBody WebServer.BadIndex, 500), s)
  ∧ WebServer.webhook (Ok (WebServer.JStr (lit "a message"))) 10 s
    = (Ok (WebServer.ErrorBody WebServer.BadIndex, 500), s)
  ∧ WebServer.webhook (Ok (WebServer.JInt 5)) 10 s
    = (Ok (WebServer.ErrorBody WebServer.NotIterable, 500), s).
Proof.
  destruct (webhook_non_object_body 10 (WebServer.initial_stats 0))
    as (Hlist & _ & Hstr & Hint & _).
  split; [apply Hlist, list_elem_of_here |].
  split; [apply Hstr; reflexivity | apply Hint; lia].
Defined.

Lemma status_flag_shown_witness :
  let s' := WebServer.update_bot_stats (Some (lit "Online")) None None None 10
              (WebServer.initial_stats 0) in
  (∃ d, WebServer.api_status_route Scenario.plain 30 s' = WebServer.JDict d
        ∧ WebServer.dict_get (lit "bot_status") d
          = Some (WebServer.JStr (lit "Offline")))
  ∧ WebServer.health_check Scenario.plain 30 s'
    = WebServer.JDict
        [(lit "status", WebServer.JStr (lit "healthy"));
         (lit "timestamp", WebServer.JStr (lit "30"));
         (lit "bot_running", WebServer.JBool false)].
Proof.
  destruct (status_flag_shown Scenario.plain 30 (lit "Online") None None None 10
              (WebServer.initial_stats 0)) as (Hroute & Hhealth & _).
  - vm_compute. discriminate.
  - split; [exact Hroute | exact Hhealth].
Defined.

Lemma webhook_updates_keep_users_witness :
  let c := Interleaving.mkConfig (WebServer.initial_stats 0)
             (Interleaving.webhook_thread (WebServer.KInt 1) 10)
             (Interleaving.webhook_thread (WebServer.KInt 2) 20) in
  WebServer.active_users
    (Interleaving.stats (Interleaving.run Interleaving.racing c))
  = {[WebServer.KInt 1]} ∪ ({[WebServer.KInt 2]} ∪ ∅).
Proof.
  apply (webhook_updates_keep_users (WebServer.initial_stats 0)
           (WebServer.KInt 1) 10 (WebServer.KInt 2) 20 Interleaving.racing).
  split; reflexivity.
Defined.

(** ** The attempts of the client *)

Section Client.

Import Bot.

(** The requests one call of [create] sends: the request, between once and
    once more than the retries left; once when the first attempt is final,
    and every time when every attempt fails in a way that is retried. *)
Lemma client_create_sent (transport : Transport) retries sent req :
  ∃ n : nat,
    (1 ≤ n ≤ S retries)%nat
    ∧ (client_create transport retries sent req).2 = replicate n req
    ∧ (∀ outcome, transport sent req = Final outcome →
         n = 1%nat ∧ (client_create transport retries sent req).1 = outcome)
    ∧ (∀ cause, (∀ sent', transport sent' req = Retryable cause) →
         n = S retries
         ∧ (client_create transport retries sent req).1 = ApiRaise cause).
Proof.
  revert sent. induction retries as [| retries IH]; intros sent; simpl.
  - exists 1%nat. destruct (transport sent req) as [cause | outcome] eqn:Hattempt.
    + split; [lia |]. split; [done |]. split; [done |].
      intros cause' Hall. rewrite Hall in Hattempt. by injection Hattempt as ->.
    + split; [lia |]. split; [done |]. split; [by intros ? [= <-] |].
      intros cause Hall. by rewrite Hall in Hattempt.
  - destruct (transport sent req) as [cause | outcome] eqn:Hattempt.
    + destruct (IH (sent ++ [req])) as (n & Hn & Hsent & _ & Hall).
      exists (S n). simpl. split; [lia |]. split; [by rewrite Hsent |].
      split; [done |]. intros cause' Hretry.
      destruct (Hall cause' Hretry) as [-> Hraise]. by split.
    + exists 1%nat. split; [lia |]. split; [done |].
      split; [by intros ? [= <-] |].
      intros cause Hall. by rewrite Hall in Hattempt.
Qed.

Lemma requests_sent_snoc (transport : Transport) calls req :
  requests_sent transport (calls ++ [req])
  = requests_sent transport calls
    ++ (client_create transport max_retries
          (requests_sent transport calls) req).2.
Proof. unfold requests_sent. by rewrite foldl_snoc. Qed.

Lemma requests_sent_app_length (transport : Transport) calls extra :
  (length (requests_sent transport (calls ++ extra))
   ≤ length (requests_sent transport calls) + 3 * length extra)%nat.
Proof.
  induction extra as [| req extra IH] using rev_ind.
  - rewrite app_nil_r. lia.
  - rewrite app_assoc, requests_sent_snoc, !length_app.
    destruct (client_create_sent transport max_retries
                (requests_sent transport (calls ++ extra)) req)
      as (n & Hn & -> & _).
    rewrite length_replicate. unfold max_retries in Hn. simpl. lia.
Qed.

(** C6 (as amended): for a user with the stored history [h],
    [generate_chatgpt_response] calls the client's [create] once and never
    again, whatever the answer. The client, built with the default of two
    retries, sends the request between one and three times: once when the
    first attempt is final, three times when every attempt fails in a way
    that is retried, and then the last failure is raised. Every failure of
    the call is raised as one [Exception] whose text is "Failed to generate
    AI response: " followed by the text of the cause: the error raised by
    the call, the [IndexError] of an empty list of choices, or the
    [AttributeError] of a choice without text. *)
Theorem completion_call_attempts (transport : Transport) deliver user_id h w :
  user_conversations w !! user_id = Some h →
  let env := openai_client transport deliver in
  let req := completion_request h in
  let sent := requests_sent transport (api_calls w) in
  let w' := after (generate_chatgpt_response env user_id) w in
  let failed e :=
    (generate_chatgpt_response env user_id w).1
    = Raise (Exception (lit "Failed to generate AI response: " ++ py_str e)) in
  api_calls w' = api_calls w ++ [req]
  ∧ (∃ n : nat,
       (1 ≤ n ≤ 3)%nat
       ∧ requests_sent transport (api_calls w') = sent ++ replicate n req
       ∧ (∀ outcome, transport sent req = Final outcome →
            n = 1%nat ∧ create env (api_calls w) req = outcome)
       ∧ (∀ cause, (∀ sent', transport sent' req = Retryable cause) →
            n = 3%nat ∧ failed (ApiError cause)))
  ∧ (∀ e, completion_result (create env (api_calls w) req) = Raise e → failed e)
  ∧ (∀ cause, create env (api_calls w) req = ApiRaise cause →
       failed (ApiError cause) ∧ py_str (ApiError cause) = cause)
  ∧ (create env (api_calls w) req = ApiResponse [] → failed IndexError)
  ∧ (∀ rest, create env (api_calls w) req = ApiResponse (None :: rest) →
       failed AttributeError).
Proof.
  intros Hh env req sent w' failed.
  destruct (generate_chatgpt_response_raises env user_id h w Hh)
    as (Hcalls & Hfail & Hraise & Hempty & Hnone).
  fold req w' in Hcalls. fold req in Hfail, Hraise, Hempty, Hnone.
  split; [exact Hcalls |].
  split; [| split; [exact Hfail |]; split; [exact Hraise |];
            split; [exact Hempty | exact Hnone]].
  destruct (client_create_sent transport max_retries sent req)
    as (n & Hn & Hsent & Hfinal & Hretry).
  exists n. split; [exact Hn |]. split.
  - rewrite Hcalls, requests_sent_snoc. fold sent. by rewrite Hsent.
  - split.
    + intros outcome Hattempt. exact (Hfinal outcome Hattempt).
    + intros cause Hall. destruct (Hretry cause Hall) as [-> Hcreate].
      split; [done |]. by apply Hraise.
Qed.

End Client.

Lemma completion_call_attempts_witness :
  let env := Bot.openai_client (Scenario.reachable (lit " hi "))
               Scenario.telegram_ok in
  let w' := Bot.after (Bot.generate_chatgpt_response env 7) Scenario.started in
  Bot.api_calls w' = [Bot.completion_request []]
  ∧ ∃ n : nat,
      (1 ≤ n ≤ 3)%nat
      ∧ Bot.requests_sent (Scenario.reachable (lit " hi ")) (Bot.api_calls w')
        = replicate n (Bot.completion_request []).
Proof.
  destruct (completion_call_attempts (Scenario.reachable (lit " hi "))
              Scenario.telegram_ok 7 [] Scenario.started eq_refl)
    as (Hcalls & (n & Hn & Hsent & _) & _).
  split; [exact Hcalls |]. exists n. split; [exact Hn | exact Hsent].
Defined.

(** The claim C6 as it is written fails when the API cannot be reached: one
    call of [generate_chatgpt_response] has the client send the request
    three times. *)
Lemma completion_call_retries :
  let env := Bot.openai_client Scenario.timing_out Scenario.telegram_ok in
  let w' := Bot.after (Bot.generate_chatgpt_response env 7) Scenario.started in
  Bot.requests_sent Scenario.timing_out (Bot.api_calls Scenario.started) = []
  ∧ Bot.api_calls w' = [Bot.completion_request []]
  ∧ Bot.requests_sent Scenario.timing_out (Bot.api_calls w')
    = [Bot.completion_request []; Bot.completion_request [];
       Bot.completion_request []]
  ∧ (Bot.generate_chatgpt_response env 7 Scenario.started).1
    = Raise (Bot.Exception
               (lit "Failed to generate AI response: Request timed out."))
  ∧ ¬ (length (Bot.requests_sent Scenario.timing_out (Bot.api_calls w'))
       = 1%nat).
Proof.
  cbv zeta.
  assert (Bot.api_calls
            (Bot.after (Bot.generate_chatgpt_response
                          (Bot.openai_client Scenario.timing_out
                             Scenario.telegram_ok) 7) Scenario.started)
          = [Bot.completion_request []]) as -> by reflexivity.
  split; [reflexivity |]. split; [reflexivity |]. split; [reflexivity |].
  split; [reflexivity |]. intros Hone. discriminate Hone.
Qed.

(** ** Calls of the client and requests to the API over the updates *)

Section CallsAndRequests.

Import Bot.

Context (env : Env).

(** X3: once the typing indicator is out, a message cycle calls the client's
    [create] exactly once. The request it hands over has as messages the
    system prompt and then the last 20 entries of the history with the
    inbound message appended, so at most 21 messages, the last of them the
    inbound message; and when the client runs over a transport, what goes to
    the API for the cycle is that request, between one and three times. *)
Theorem request_carries_limited_history update w :
  let inbound := {| msg_role := user; content := message_text update |} in
  let h := user_conversations_get (effective_user_id update) w ++ [inbound] in
  let w' := after (handle_message env init update) w in
  deliver env (outbox w) (ChatAction (effective_chat_id update) (lit "typing"))
  = None →
  ∃ req,
    api_calls w' = api_calls w ++ [req]
    ∧ messages req = system_prompt :: drop (length h - 20) h
    ∧ len (messages req) <= 21
    ∧ last (messages req) = Some inbound
    ∧ ∀ (transport : Transport) deliver',
        env = openai_client transport deliver' →
        ∃ n : nat,
          (1 ≤ n ≤ 3)%nat
          ∧ requests_sent transport (api_calls w')
            = requests_sent transport (api_calls w) ++ replicate n req.
Proof.
  intros inbound h w' Htyping.
  destruct (handle_message_request env update w Htyping)
    as (req & Hcalls & Hmessages & Hlen & Hlast).
  exists req. fold w' in Hcalls.
  split; [exact Hcalls |]. split; [exact Hmessages |].
  split; [exact Hlen |]. split; [exact Hlast |].
  intros transport deliver' _.
  destruct (client_create_sent transport max_retries
              (requests_sent transport (api_calls w)) req)
    as (n & Hn & Hsent & _).
  exists n. split; [exact Hn |].
  by rewrite Hcalls, requests_sent_snoc, Hsent.
Qed.

(** A handler calls the client at most once, and only appends to the calls. *)
Lemma run_handler_calls self h update w :
  ∃ extra,
    api_calls (after (run_handler env self h update) w) = api_calls w ++ extra
    ∧ (length extra ≤ 1)%nat.
Proof.
  destruct (run_handler_frame env self h update w) as (_ & Hcommand & _).
  destruct h as [| | | now_text |];
    try (exists []; rewrite app_nil_r; split; [by apply Hcommand | simpl; lia]).
  simpl. destruct (handle_message_after env self update w) as [_ Hafter].
  destruct (deliver env _ _); destruct Hafter as [-> _].
  - exists []. rewrite app_nil_r. split; [done | simpl; lia].
  - eexists [_]. split; [done | simpl; lia].
Qed.

Lemma process_updates_calls self updates w :
  ∃ extra,
    api_calls (process_updates env self updates w) = api_calls w ++ extra
    ∧ (length extra ≤ length updates)%nat.
Proof.
  revert w. induction updates as [| [h update] updates IH]; intros w.
  - exists []. by rewrite app_nil_r.
  - simpl.
    destruct (process_update_run env self h update w) as [_ (_ & _ & Ha)].
    destruct (run_handler_calls self h update w) as (first_ & Hfirst & Hone).
    destruct (IH (after (process_update env self h update) w))
      as (rest & Hrest & Hlen).
    exists (first_ ++ rest). split.
    + by rewrite Hrest, Ha, Hfirst, app_assoc.
    + rewrite length_app. simpl. lia.
Qed.

(** X17: no sequence of commands and messages changes [bot_stats]. The bot
    calls the client's [create] at most once per update, and not at all
    when every update is a command; and when the client runs over a
    transport, at most three requests per update go to the API. *)
Theorem process_updates_keep_bot_stats self updates w :
  let w' := process_updates env self updates w in
  bot_stats w' = bot_stats w
  ∧ (length (api_calls w') ≤ length (api_calls w) + length updates)%nat
  ∧ (Forall (λ hu : handler * Update, hu.1 ≠ TextMessage) updates →
     api_calls w' = api_calls w)
  ∧ ∀ (transport : Transport) deliver',
      env = openai_client transport deliver' →
      (length (requests_sent transport (api_calls w'))
       ≤ length (requests_sent transport (api_calls w)) + 3 * length updates)%nat.
Proof.
  intros w'.
  destruct (process_updates_frame env self updates w) as (Hs & Hcalls & Hnone).
  fold w' in Hs, Hcalls, Hnone.
  split; [exact Hs |]. split; [exact Hcalls |]. split; [exact Hnone |].
  intros transport deliver' _.
  destruct (process_updates_calls self updates w) as (extra & Hextra & Hlen).
  fold w' in Hextra. rewrite Hextra.
  pose proof (requests_sent_app_length transport (api_calls w) extra). lia.
Qed.

(** X14: handling an update never raises. For an update that carries a
    message, what a handler raises ends in [error_handler], which sends one
    apology when Telegram accepts it and swallows the error of the send when
    it does not. For an edited message, where [update.message] is [None],
    every handler raises and [error_handler] sends nothing: nothing goes out
    at all, and the state is as before, but for [/clear], which has emptied
    the history of a sender who had an entry. *)
Theorem process_incoming_never_raises self h i w :
  let w1 := after (run_handler_any env self h i) w in
  let w' := after (process_incoming env self h i) w in
  (process_incoming env self h i w).1 = Ok ()
  ∧ only_sends w1 w'
  ∧ ((run_handler_any env self h i w).1 = Ok () → w' = w1)
  ∧ (∀ update e,
       i = NewMessage update →
       (run_handler_any env self h i w).1 = Raise e →
       let apology :=
         ReplyText (effective_chat_id update)
           ([10060%N]
            ++ lit " An unexpected error occurred. Please try again later.")
           None in
       outbox w' = outbox w1 ++ match deliver env (outbox w1) apology with
                                | None => [apology]
                                | Some _ => []
                                end)
  ∧ (∀ user_id first_name chat_id,
       i = EditedMessage user_id first_name chat_id →
       (∃ e, (run_handler_any env self h i w).1 = Raise e)
       ∧ outbox w' = outbox w
       ∧ bot_stats w' = bot_stats w
       ∧ api_calls w' = api_calls w
       ∧ user_conversations w'
         = match h with
           | ClearCommand =>
               if decide (user_id ∈ dom (user_conversations w))
               then <[user_id := []]> (user_conversations w)
               else user_conversations w
           | _ => user_conversations w
           end).
Proof.
  intros w1 w'. destruct i as [update | user_id first_name chat_id].
  - destruct (process_update_apology env self h update w)
      as (Hok & Hsends & Hsame & Hraised).
    split; [exact Hok |]. split; [exact Hsends |]. split; [exact Hsame |].
    split; [| by intros ? ? ? [=]].
    intros update' e [= <-] He. exact (Hraised e He).
  - subst w1 w'. unfold after, process_incoming, try_except.
    assert (∀ attribute w0,
      (raise (NoMessage attribute) : prog World exn unit) w0
      = (Raise (NoMessage attribute), w0)) as Hraise by done.
    destruct h as [| | | now_text |]; cbn [run_handler_any message_of];
      try (rewrite Hraise; cbn [fst snd error_handler];
           split; [done |]; split; [apply only_sends_refl |];
           split; [done |]; split; [by intros ? ? [=] |];
           intros ? ? ? _; repeat split; by eexists).
    rewrite bind_run. cbn [get fst snd]. rewrite bind_run.
    destruct (decide (user_id ∈ dom (user_conversations w))) as [Hin | Hout];
      cbn [error_handler]; unfold set_conversation, modify;
      cbn [fst snd mret prog_ret raise];
      (split; [done |]); (split; [apply only_sends_refl |]);
      (split; [done |]); (split; [by intros ? ? [=] |]);
      intros ? ? ? [= <- _ _]; (split; [by eexists |]).
    + rewrite decide_True by done. by repeat split.
    + rewrite decide_False by done. by repeat split.
Qed.

End CallsAndRequests.

Lemma request_carries_limited_history_witness :
  let env := Bot.openai_client (Scenario.reachable (lit " hi "))
               Scenario.telegram_ok in
  let w' := Bot.after (Bot.handle_message env Bot.init Scenario.hello)
                      Scenario.started in
  ∃ req,
    Bot.api_calls w' = Bot.api_calls Scenario.started ++ [req]
    ∧ len (Bot.messages req) <= 21
    ∧ last (Bot.messages req) = Some (Bot.mkMessage Bot.user (lit "hello"))
    ∧ ∃ n : nat,
        (1 ≤ n ≤ 3)%nat
        ∧ Bot.requests_sent (Scenario.reachable (lit " hi ")) (Bot.api_calls w')
          = Bot.requests_sent (Scenario.reachable (lit " hi "))
              (Bot.api_calls Scenario.started) ++ replicate n req.
Proof.
  destruct (request_carries_limited_history
              (Bot.openai_client (Scenario.reachable (lit " hi "))
                 Scenario.telegram_ok)
              Scenario.hello Scenario.started eq_refl)
    as (req & Hcalls & _ & Hlen & Hlast & Hsent).
  exists req. split; [exact Hcalls |]. split; [exact Hlen |].
  split; [exact Hlast |].
  exact (Hsent (Scenario.reachable (lit " hi ")) Scenario.telegram_ok eq_refl).
Defined.

Lemma process_updates_keep_bot_stats_witness :
  let updates := [(Bot.StartCommand, Scenario.hello);
                  (Bot.ClearCommand, Scenario.hello)] in
  let env := Bot.openai_client Scenario.timing_out Scenario.telegram_ok in
  Bot.api_calls (Bot.process_updates env Bot.init updates Scenario.started)
  = Bot.api_calls Scenario.started
  ∧ (length (Bot.requests_sent Scenario.timing_out
               (Bot.api_calls
                  (Bot.process_updates env Bot.init
                     [(Bot.TextMessage, Scenario.hello)] Scenario.started)))
     ≤ length (Bot.requests_sent Scenario.timing_out
                 (Bot.api_calls Scenario.started)) + 3 * 1)%nat.
Proof.
  destruct (process_updates_keep_bot_stats
              (Bot.openai_client Scenario.timing_out Scenario.telegram_ok)
              Bot.init
              [(Bot.StartCommand, Scenario.hello);
               (Bot.ClearCommand, Scenario.hello)] Scenario.started)
    as (_ & _ & Hcommands & _).
  destruct (process_updates_keep_bot_stats
              (Bot.openai_client Scenario.timing_out Scenario.telegram_ok)
              Bot.init [(Bot.TextMessage, Scenario.hello)] Scenario.started)
    as (_ & _ & _ & Hrequests).
  split.
  - apply Hcommands. repeat constructor; discriminate.
  - exact (Hrequests Scenario.timing_out Scenario.telegram_ok eq_refl).
Defined.

Lemma process_incoming_never_raises_witness :
  let env := Scenario.answering (lit " hi ") in
  let edited := Bot.EditedMessage 7 (lit "Ann") 7 in
  let w' := Bot.after (Bot.process_incoming env Bot.init Bot.ClearCommand edited)
                      (Scenario.answered 1) in
  (Bot.process_incoming env Bot.init Bot.ClearCommand edited
     (Scenario.answered 1)).1 = Ok ()
  ∧ Bot.outbox w' = Bot.outbox (Scenario.answered 1)
  ∧ Bot.user_conversations_get 7 w' = []
  ∧ Bot.outbox
      (Bot.after (Bot.process_incoming (Scenario.offline (lit "network"))
                    Bot.init Bot.TextMessage (Bot.NewMessage Scenario.hello))
                 (Bot.initial_world 0)) = [].
Proof.
  destruct (process_incoming_never_raises (Scenario.answering (lit " hi "))
              Bot.init Bot.ClearCommand (Bot.EditedMessage 7 (lit "Ann") 7)
              (Scenario.answered 1)) as (Hok & _ & _ & _ & Hedited).
  destruct (Hedited 7 (lit "Ann") 7 eq_refl) as (_ & Hsent & _ & _ & Hcleared).
  destruct (process_incoming_never_raises (Scenario.offline (lit "network"))
              Bot.init Bot.TextMessage (Bot.NewMessage Scenario.hello)
              (Bot.initial_world 0)) as (_ & _ & _ & Hraised & _).
  split; [exact Hok |]. split; [exact Hsent |]. split.
  - unfold Bot.user_conversations_get. rewrite Hcleared. reflexivity.
  - exact (Hraised Scenario.hello (Bot.TelegramError (lit "network"))
             eq_refl eq_refl).
Defined.
